(** * Session store and authenticated request client of the to-do front end

    A shallow embedding of
    - [src/lib/types.ts] (second part: the axios instance [api], its request
      interceptor, [taskApi] and [authApi]),
    - [src/lib/auth-context.tsx] ([AuthProvider]: the mount effect, [login],
      [signup], [logout]),
    - the auth shim of [src/unnamed/part_002] ([useSession]),
    - [src/app/dashboard/page.tsx] ([filteredTasks]),
    followed by the properties the specification states about them.

    Conventions.
    - A JavaScript value that may be [undefined]/[null] is an [option].
    - The browser's cookie store is a finite map from cookie names to
      cookies; [Cookies.get/set/remove] are js-cookie's operations on it.
    - An [async] function is a tree of effects ([Async]); [await] on an HTTP
      call suspends the function, whose continuation is resumed by the event
      loop when the response arrives.  All React state updates issued by one
      synchronous continuation are committed together, so the states the
      store exhibits are the states between continuations.
    - Strings are byte strings.  On ASCII text (every byte below 128) a
      byte is a UTF-16 code unit and [toLowerCase], [trim] and [includes]
      are exactly the functions defined here; the statements about text say
      that they are about ASCII text ([is_ascii]).  Beyond ASCII the
      built-in functions follow Unicode (case folding that depends on the
      context, more white space) and nothing is stated. *)

From Stdlib Require Import String Ascii List Bool ZArith Lia.
From stdpp Require Import gmap strings list fin_maps.

Local Open Scope string_scope.
Local Open Scope list_scope.
Local Set Warnings "-register-all".

(* ===================================================================== *)
(** * JavaScript values                                                    *)
(* ===================================================================== *)

Module Js.

(** [if (s)] for [s : string | undefined]: the empty string is falsy. *)
Definition truthy (s : option string) : bool :=
  match s with
  | Some s => negb (String.eqb s "")
  | None => false
  end.

(** [if (o)] for [o : object | null | undefined]. *)
Definition truthy_obj {A : Type} (o : option A) : bool :=
  match o with
  | Some _ => true
  | None => false
  end.

(** [c.toLowerCase()] on one ASCII code unit: only [A]-[Z] change. *)
Definition lower_ascii (c : ascii) : ascii :=
  let n := nat_of_ascii c in
  if (65 <=? n)%nat && (n <=? 90)%nat then ascii_of_nat (n + 32) else c.

(** [s.toLowerCase()] for an ASCII string [s], where the built-in function
    works code unit by code unit. *)
Fixpoint toLowerCase (s : string) : string :=
  match s with
  | EmptyString => EmptyString
  | String c s' => String (lower_ascii c) (toLowerCase s')
  end.

(** [s.startsWith(p)]. *)
Fixpoint startsWith (s p : string) : bool :=
  match p, s with
  | EmptyString, _ => true
  | String _ _, EmptyString => false
  | String a p', String b s' => Ascii.eqb a b && startsWith s' p'
  end.

(** [s.includes(sub)]: [sub] starts at some position of [s]. *)
Fixpoint includes (s sub : string) : bool :=
  startsWith s sub ||
  match s with
  | EmptyString => false
  | String _ s' => includes s' sub
  end.

(** JSON values, as far as request bodies need them. *)
Inductive Json : Type :=
| JBool (b : bool)
| JStr (s : string)
| JObj (fields : list (string * Json)).

(** An object literal drops the properties whose value is [undefined]. *)
Definition object (fields : list (string * option Json)) : Json :=
  JObj (omap (fun '(k, v) => pair k <$> v) fields).

End Js.

(* ===================================================================== *)
(** * js-cookie                                                            *)
(* ===================================================================== *)

Record Cookie : Type := mkCookie {
  cookie_value : string;
  cookie_expires : nat   (* lifetime in days *)
}.

Module Cookies.

(** [Cookies.get(name)]. *)
Definition get (name : string) (jar : gmap string Cookie) : option string :=
  cookie_value <$> jar !! name.

(** [Cookies.set(name, value, { expires })]. *)
Definition set (name value : string) (expires : nat)
    (jar : gmap string Cookie) : gmap string Cookie :=
  <[name := mkCookie value expires]> jar.

(** [Cookies.remove(name)]. *)
Definition remove (name : string) (jar : gmap string Cookie) : gmap string Cookie :=
  delete name jar.

End Cookies.

(* ===================================================================== *)
(** * The request client ([api], [taskApi], [authApi])                     *)
(* ===================================================================== *)

Inductive Method : Type := GET | POST | PUT | PATCH | DELETE.

(** The query of [taskApi.getTasks]. *)
Record TaskQuery : Type := mkTaskQuery {
  q_status : option string;
  q_sort : option string;
  q_order : option string;
  q_skip : option Z;
  q_limit : option Z
}.

(** What one call of [api.get/post/put/patch/delete] supplies. *)
Record Call : Type := mkCall {
  call_method : Method;
  call_url : string;
  call_data : option Js.Json;
  call_params : option TaskQuery
}.

(** The configuration of one outgoing request. *)
Record AxiosRequestConfig : Type := mkConfig {
  baseURL : string;
  method : Method;
  url : string;
  headers : gmap string string;
  data : option Js.Json;
  params : option TaskQuery;
  withCredentials : bool
}.

Module api.

(** [process.env.NEXT_PUBLIC_API_URL || 'http://localhost:8000']. *)
Definition API_BASE_URL (env : option string) : string :=
  match env with
  | Some u => if Js.truthy env then u else "http://localhost:8000"
  | None => "http://localhost:8000"
  end.

(** [axios.create({ baseURL, headers, withCredentials })] merged with the
    arguments of a call. *)
Definition create (env : option string) (c : Call) : AxiosRequestConfig :=
  {| baseURL := API_BASE_URL env;
     method := call_method c;
     url := call_url c;
     headers := {[ "Content-Type" := "application/json" ]};
     data := call_data c;
     params := call_params c;
     withCredentials := true |}.

(** [api.interceptors.request.use((config) => ...)]. *)
Definition request_interceptor (jar : gmap string Cookie)
    (config : AxiosRequestConfig) : AxiosRequestConfig :=
  let token := Cookies.get "token" jar in
  match token with
  | Some t =>
      if Js.truthy token then
        {| baseURL := baseURL config;
           method := method config;
           url := url config;
           headers := <["Authorization" := "Bearer " +:+ t]> (headers config);
           data := data config;
           params := params config;
           withCredentials := withCredentials config |}
      else config
  | None => config
  end.

(** The request that leaves the client for a call, given the environment
    and the cookie store at that moment. *)
Definition request (env : option string) (jar : gmap string Cookie)
    (c : Call) : AxiosRequestConfig :=
  request_interceptor jar (create env c).

Definition get (u : string) (p : option TaskQuery) : Call := mkCall GET u None p.
Definition post (u : string) (d : option Js.Json) : Call := mkCall POST u d None.
Definition put (u : string) (d : option Js.Json) : Call := mkCall PUT u d None.
Definition patch (u : string) (d : option Js.Json) : Call := mkCall PATCH u d None.
Definition delete (u : string) : Call := mkCall DELETE u None None.

End api.

(** The body of [createTask]. *)
Record TaskCreateData : Type := mkTaskCreateData {
  tc_title : string;
  tc_description : option string;
  tc_completed : option bool
}.

(** The body of [updateTask]. *)
Record TaskUpdateData : Type := mkTaskUpdateData {
  tu_title : option string;
  tu_description : option string;
  tu_completed : option bool
}.

Record Credentials : Type := mkCredentials {
  email : string;
  password : string
}.

Definition json_of_create (d : TaskCreateData) : Js.Json :=
  Js.object [("title", Some (Js.JStr (tc_title d)));
             ("description", Js.JStr <$> tc_description d);
             ("completed", Js.JBool <$> tc_completed d)].

Definition json_of_update (d : TaskUpdateData) : Js.Json :=
  Js.object [("title", Js.JStr <$> tu_title d);
             ("description", Js.JStr <$> tu_description d);
             ("completed", Js.JBool <$> tu_completed d)].

Definition json_of_credentials (d : Credentials) : Js.Json :=
  Js.object [("email", Some (Js.JStr (email d)));
             ("password", Some (Js.JStr (password d)))].

Module taskApi.

Definition getTasks (userId : string) (params : option TaskQuery) : Call :=
  api.get ("/api/" +:+ userId +:+ "/tasks") params.

Definition createTask (userId : string) (d : TaskCreateData) : Call :=
  api.post ("/api/" +:+ userId +:+ "/tasks") (Some (json_of_create d)).

Definition getTask (userId taskId : string) : Call :=
  api.get ("/api/" +:+ userId +:+ "/tasks/" +:+ taskId) None.

Definition updateTask (userId taskId : string) (d : TaskUpdateData) : Call :=
  api.put ("/api/" +:+ userId +:+ "/tasks/" +:+ taskId) (Some (json_of_update d)).

Definition deleteTask (userId taskId : string) : Call :=
  api.delete ("/api/" +:+ userId +:+ "/tasks/" +:+ taskId).

(** [completed: boolean = true]: an omitted argument takes the default. *)
Definition toggleComplete (userId taskId : string) (completed : option bool) : Call :=
  let completed := default true completed in
  api.patch ("/api/" +:+ userId +:+ "/tasks/" +:+ taskId +:+ "/complete")
            (Some (Js.object [("completed", Some (Js.JBool completed))])).

Definition markTaskComplete (userId taskId : string) : Call :=
  api.patch ("/api/" +:+ userId +:+ "/tasks/" +:+ taskId +:+ "/complete")
            (Some (Js.object [("completed", Some (Js.JBool true))])).

End taskApi.

Module authApi.

Definition signin (d : Credentials) : Call :=
  api.post "/api/auth/signin" (Some (json_of_credentials d)).

Definition signup (d : Credentials) : Call :=
  api.post "/api/auth/signup" (Some (json_of_credentials d)).

Definition signout : Call := api.post "/api/auth/signout" None.

Definition session : Call := api.get "/api/auth/session" None.

Definition signInEmail (d : Credentials) : Call :=
  api.post "/api/auth/sign-in/email" (Some (json_of_credentials d)).

Definition signUpEmail (d : Credentials) : Call :=
  api.post "/api/auth/sign-up/email" (Some (json_of_credentials d)).

End authApi.

(** Every operation the client exports, with its arguments. *)
Inductive Operation : Type :=
| OpGetTasks (userId : string) (params : option TaskQuery)
| OpCreateTask (userId : string) (d : TaskCreateData)
| OpGetTask (userId taskId : string)
| OpUpdateTask (userId taskId : string) (d : TaskUpdateData)
| OpDeleteTask (userId taskId : string)
| OpToggleComplete (userId taskId : string) (completed : option bool)
| OpMarkTaskComplete (userId taskId : string)
| OpSignin (d : Credentials)
| OpSignup (d : Credentials)
| OpSignout
| OpSession
| OpSignInEmail (d : Credentials)
| OpSignUpEmail (d : Credentials).

Definition call_of (op : Operation) : Call :=
  match op with
  | OpGetTasks u p => taskApi.getTasks u p
  | OpCreateTask u d => taskApi.createTask u d
  | OpGetTask u t => taskApi.getTask u t
  | OpUpdateTask u t d => taskApi.updateTask u t d
  | OpDeleteTask u t => taskApi.deleteTask u t
  | OpToggleComplete u t c => taskApi.toggleComplete u t c
  | OpMarkTaskComplete u t => taskApi.markTaskComplete u t
  | OpSignin d => authApi.signin d
  | OpSignup d => authApi.signup d
  | OpSignout => authApi.signout
  | OpSession => authApi.session
  | OpSignInEmail d => authApi.signInEmail d
  | OpSignUpEmail d => authApi.signUpEmail d
  end.

(* ===================================================================== *)
(** * Users and responses                                                  *)
(* ===================================================================== *)

Module User.

Record t : Type := mk {
  id : string;
  email : string;
  createdAt : option string;
  updatedAt : option string;
  created_at : option string;
  updated_at : option string
}.

End User.

(** [response.data] of the auth endpoints. *)
Record ResponseData : Type := mkResponseData {
  data_user : option User.t;
  data_access_token : option string
}.

Inductive AxiosError : Type :=
| NetworkError
| BadStatus (status : nat).

(** How the promise of an HTTP call settles. *)
Inductive AxiosResult : Type :=
| Resolved (d : ResponseData)
| Rejected (e : AxiosError).

(* ===================================================================== *)
(** * The auth shim ([useSession])                                         *)
(* ===================================================================== *)

Module Auth.

Record SessionInfo : Type := mkSessionInfo {
  session_id : string;
  session_token : string
}.

Record SessionData : Type := mkSessionData {
  user : option User.t;
  session : SessionInfo
}.

Record Session : Type := mkSession {
  data : option SessionData;
  isLoading : bool;
  isPending : bool;
  isAuthenticated : bool
}.

Definition useSession (jar : gmap string Cookie) : Session :=
  let token := Cookies.get "token" jar in
  {| data :=
       match token with
       | Some t =>
           if Js.truthy token
           then Some {| user := None; session := mkSessionInfo t t |}
           else None
       | None => None
       end;
     isLoading := false;
     isPending := false;
     isAuthenticated := negb (negb (Js.truthy token)) |}.

End Auth.

(* ===================================================================== *)
(** * Asynchronous functions                                               *)
(* ===================================================================== *)

(** What a [throw] carries: an [Error] built by the code, or the rejection
    of an HTTP call re-thrown by [await]. *)
Inductive Thrown : Type :=
| JsError (message : string)
| AxiosFailure (e : AxiosError).

(** The body of an [async] function of the provider, as the sequence of its
    effects.  [Await] is [await] on an HTTP call; [Spawn p k] calls the
    [async] function [p] without awaiting it and goes on with [k]. *)
Inductive Async : Type :=
| Return
| Throw (e : Thrown)
| SetUser (u : option User.t) (k : Async)
| SetToken (t : option string) (k : Async)
| SetIsLoading (b : bool) (k : Async)
| CookiesGet (name : string) (k : option string -> Async)
| CookiesSet (name value : string) (expires : nat) (k : Async)
| CookiesRemove (name : string) (k : Async)
| ConsoleError (label : string) (e : Thrown) (k : Async)
| Await (c : Call) (k : AxiosResult -> Async)
| Spawn (p : Async) (k : Async).

(** [p; q]. *)
Fixpoint andThen (p q : Async) : Async :=
  match p with
  | Return => q
  | Throw e => Throw e
  | SetUser u k => SetUser u (andThen k q)
  | SetToken t k => SetToken t (andThen k q)
  | SetIsLoading b k => SetIsLoading b (andThen k q)
  | CookiesGet n k => CookiesGet n (fun v => andThen (k v) q)
  | CookiesSet n v e k => CookiesSet n v e (andThen k q)
  | CookiesRemove n k => CookiesRemove n (andThen k q)
  | ConsoleError l e k => ConsoleError l e (andThen k q)
  | Await c k => Await c (fun r => andThen (k r) q)
  | Spawn p' k => Spawn p' (andThen k q)
  end.

(** [try { p } catch (error) { h error }]. *)
Fixpoint try_catch (p : Async) (h : Thrown -> Async) : Async :=
  match p with
  | Return => Return
  | Throw e => h e
  | SetUser u k => SetUser u (try_catch k h)
  | SetToken t k => SetToken t (try_catch k h)
  | SetIsLoading b k => SetIsLoading b (try_catch k h)
  | CookiesGet n k => CookiesGet n (fun v => try_catch (k v) h)
  | CookiesSet n v e k => CookiesSet n v e (try_catch k h)
  | CookiesRemove n k => CookiesRemove n (try_catch k h)
  | ConsoleError l e k => ConsoleError l e (try_catch k h)
  | Await c k => Await c (fun r => try_catch (k r) h)
  | Spawn p' k => Spawn p' (try_catch k h)
  end.

(** [try { p } finally { f }]. *)
Fixpoint try_finally (p f : Async) : Async :=
  match p with
  | Return => f
  | Throw e => andThen f (Throw e)
  | SetUser u k => SetUser u (try_finally k f)
  | SetToken t k => SetToken t (try_finally k f)
  | SetIsLoading b k => SetIsLoading b (try_finally k f)
  | CookiesGet n k => CookiesGet n (fun v => try_finally (k v) f)
  | CookiesSet n v e k => CookiesSet n v e (try_finally k f)
  | CookiesRemove n k => CookiesRemove n (try_finally k f)
  | ConsoleError l e k => ConsoleError l e (try_finally k f)
  | Await c k => Await c (fun r => try_finally (k r) f)
  | Spawn p' k => Spawn p' (try_finally k f)
  end.

(** [const response = await call; k response]: a rejected call throws. *)
Definition await (c : Call) (k : ResponseData -> Async) : Async :=
  Await c (fun r =>
    match r with
    | Resolved response => k response
    | Rejected e => Throw (AxiosFailure e)
    end).

(* ===================================================================== *)
(** * The session store ([AuthProvider])                                   *)
(* ===================================================================== *)

(** The three [useState] cells of the provider. *)
Record Store : Type := mkStore {
  user : option User.t;
  token : option string;
  isLoading : bool
}.

(** [useState(null)], [useState(null)], [useState(true)]. *)
Definition initial_store : Store :=
  {| user := None; token := None; isLoading := true |}.

(** The [async] function declared inside the mount effect. *)
Definition validateToken : Async :=
  try_catch
    (await authApi.session (fun response =>
       if Js.truthy_obj (data_user response) then
         SetUser (data_user response) Return
       else
         CookiesRemove "token" (SetToken None Return)))
    (fun error =>
       ConsoleError "Token validation failed:" error
         (CookiesRemove "token" (SetToken None Return))).

(** The body of [useEffect(() => { ... }, [])]: the store's [initialize]. *)
Definition initialize : Async :=
  CookiesGet "token" (fun storedToken =>
    andThen
      (if Js.truthy storedToken then
         SetToken storedToken (Spawn validateToken Return)
       else Return)
      (SetIsLoading false Return)).

Definition login (email password : string) : Async :=
  SetIsLoading true
    (try_finally
       (try_catch
          (await (authApi.signin (mkCredentials email password)) (fun response =>
             if Js.truthy_obj (data_user response)
                && Js.truthy (data_access_token response) then
               SetUser (data_user response)
                 (CookiesSet "token" (default "" (data_access_token response)) 7
                    (SetToken (data_access_token response) Return))
             else Throw (JsError "Login failed")))
          (fun error =>
             ConsoleError "Login error:" error
               (Throw (JsError "Invalid email or password"))))
       (SetIsLoading false Return)).

Definition signup (email password : string) : Async :=
  SetIsLoading true
    (try_finally
       (try_catch
          (await (authApi.signup (mkCredentials email password)) (fun response =>
             if Js.truthy_obj (data_user response)
                && Js.truthy (data_access_token response) then
               SetUser (data_user response)
                 (CookiesSet "token" (default "" (data_access_token response)) 7
                    (SetToken (data_access_token response) Return))
             else login email password))
          (fun error =>
             ConsoleError "Signup error:" error
               (Throw (JsError "Signup failed"))))
       (SetIsLoading false Return)).

Definition logout : Async :=
  try_finally
    (try_catch
       (await authApi.signout (fun _ => Return))
       (fun error => ConsoleError "Logout error:" error Return))
    (CookiesRemove "token" (SetToken None (SetUser None Return))).

(* ===================================================================== *)
(** * The event loop                                                       *)
(* ===================================================================== *)

(** Which entry point a suspended continuation belongs to. *)
Inductive Origin : Type := FromMount | FromLogin | FromSignup | FromLogout.

(** The browser tab: the provider's state, the cookie store, the console,
    the requests sent so far and the continuations waiting for a response. *)
Record World : Type := mkWorld {
  env : option string;
  mounted : bool;
  store : Store;
  jar : gmap string Cookie;
  console : list (string * Thrown);
  sent : list AxiosRequestConfig;
  pending : list (Origin * (AxiosResult -> Async))
}.

(** The tab at the first render, before the mount effect has run. *)
Definition boot (env : option string) (jar : gmap string Cookie) : World :=
  {| env := env; mounted := false; store := initial_store; jar := jar;
     console := []; sent := []; pending := [] |}.

Definition with_store (f : Store -> Store) (w : World) : World :=
  {| env := env w; mounted := mounted w; store := f (store w); jar := jar w;
     console := console w; sent := sent w; pending := pending w |}.

Definition with_jar (f : gmap string Cookie -> gmap string Cookie) (w : World) : World :=
  {| env := env w; mounted := mounted w; store := store w; jar := f (jar w);
     console := console w; sent := sent w; pending := pending w |}.

Definition with_pending
    (f : list (Origin * (AxiosResult -> Async)) -> list (Origin * (AxiosResult -> Async)))
    (w : World) : World :=
  {| env := env w; mounted := mounted w; store := store w; jar := jar w;
     console := console w; sent := sent w; pending := f (pending w) |}.

Definition log (l : string) (e : Thrown) (w : World) : World :=
  {| env := env w; mounted := mounted w; store := store w; jar := jar w;
     console := console w ++ [(l, e)]; sent := sent w; pending := pending w |}.

(** Sending a call: the interceptor reads the cookie store as it is now.
    (axios runs request interceptors in a microtask right after the call;
    no code of the provider touches the cookie store in between, so the call
    and its interception are one step here.) *)
Definition send (c : Call) (w : World) : World :=
  {| env := env w; mounted := mounted w; store := store w; jar := jar w;
     console := console w;
     sent := sent w ++ [api.request (env w) (jar w) c];
     pending := pending w |}.

Definition set_mounted (w : World) : World :=
  {| env := env w; mounted := true; store := store w; jar := jar w;
     console := console w; sent := sent w; pending := pending w |}.

Definition set_user (u : option User.t) (s : Store) : Store :=
  {| user := u; token := token s; isLoading := isLoading s |}.

Definition set_token (t : option string) (s : Store) : Store :=
  {| user := user s; token := t; isLoading := isLoading s |}.

Definition set_isLoading (b : bool) (s : Store) : Store :=
  {| user := user s; token := token s; isLoading := b |}.

(** How a run of a continuation ends. *)
Inductive Outcome : Type :=
| Fulfilled
| Failed (e : Thrown)
| Suspended.

(** One synchronous run: the effects of [p] up to its end or to its first
    [await], where the request is sent and the rest of [p] is parked. *)
Fixpoint exec (o : Origin) (p : Async) (w : World) : World * Outcome :=
  match p with
  | Return => (w, Fulfilled)
  | Throw e => (w, Failed e)
  | SetUser u k => exec o k (with_store (set_user u) w)
  | SetToken t k => exec o k (with_store (set_token t) w)
  | SetIsLoading b k => exec o k (with_store (set_isLoading b) w)
  | CookiesGet n k => exec o (k (Cookies.get n (jar w))) w
  | CookiesSet n v e k => exec o k (with_jar (Cookies.set n v e) w)
  | CookiesRemove n k => exec o k (with_jar (Cookies.remove n) w)
  | ConsoleError l e k => exec o k (log l e w)
  | Await c k => (with_pending (fun ps => ps ++ [(o, k)]) (send c w), Suspended)
  | Spawn p' k => exec o k (fst (exec o p' w))
  end.

(** The operations a view can invoke. *)
Inductive Action : Type :=
| Login (email password : string)
| Signup (email password : string)
| Logout.

Inductive Event : Type :=
| Mount
| Invoke (a : Action)
| Settle (i : nat) (r : AxiosResult).

Definition start (a : Action) (w : World) : World * Outcome :=
  match a with
  | Login e p => exec FromLogin (login e p) w
  | Signup e p => exec FromSignup (signup e p) w
  | Logout => exec FromLogout logout w
  end.

(** The [i]-th waiting continuation receives its response. *)
Definition settle (i : nat) (r : AxiosResult) (w : World) : option (World * Outcome) :=
  match pending w !! i with
  | Some (o, k) => Some (exec o (k r) (with_pending (delete i) w))
  | None => None
  end.

(** One turn of the event loop.  The mount effect runs once, first. *)
Definition step (ev : Event) (w : World) : option (World * Outcome) :=
  match ev with
  | Mount => if mounted w then None else Some (exec FromMount initialize (set_mounted w))
  | Invoke a => if mounted w then Some (start a w) else None
  | Settle i r => if mounted w then settle i r w else None
  end.

Fixpoint run (evs : list Event) (w : World) : option World :=
  match evs with
  | [] => Some w
  | ev :: evs' =>
      match step ev w with
      | Some (w', _) => run evs' w'
      | None => None
      end
  end.

(** An operation run on its own: invoked, then fed the responses of its
    successive calls; the outcome is what its caller observes. *)
Fixpoint feed (rs : list AxiosResult) (wo : World * Outcome) : World * Outcome :=
  match rs with
  | [] => wo
  | r :: rs' =>
      match snd wo with
      | Suspended =>
          match settle (length (pending (fst wo)) - 1) r (fst wo) with
          | Some wo' => feed rs' wo'
          | None => wo
          end
      | _ => wo
      end
  end.

Definition perform (a : Action) (rs : list AxiosResult) (w : World) : World * Outcome :=
  feed rs (start a w).

Definition is_validation (p : Origin * (AxiosResult -> Async)) : bool :=
  match fst p with
  | FromMount => true
  | _ => false
  end.

(** The token validation started by the mount effect has not settled yet. *)
Definition validation_in_flight (w : World) : bool :=
  existsb is_validation (pending w).

(** Worlds reachable from the first render when an event [ev] may only
    happen in a world [w] with [guard w ev]. *)
Inductive reachable_under (guard : World -> Event -> Prop)
    (env0 : option string) (jar0 : gmap string Cookie) : World -> Prop :=
| reach_boot : reachable_under guard env0 jar0 (boot env0 jar0)
| reach_step w ev w' o :
    reachable_under guard env0 jar0 w ->
    guard w ev ->
    step ev w = Some (w', o) ->
    reachable_under guard env0 jar0 w'.

Definition reachable : option string -> gmap string Cookie -> World -> Prop :=
  reachable_under (fun _ _ => True).

(** Operations are invoked only once the initial validation has settled. *)
Definition after_validation (w : World) (ev : Event) : Prop :=
  match ev with
  | Invoke _ => validation_in_flight w = false
  | _ => True
  end.

(** The session invariant of the data model. *)
Definition user_backed_by_token (s : Store) : Prop :=
  user s <> None -> token s <> None.

(** [run], refusing an operation invoked while the initial validation is
    still in flight. *)
Fixpoint run_after_validation (evs : list Event) (w : World) : option World :=
  match evs with
  | [] => Some w
  | ev :: evs' =>
      match ev, validation_in_flight w with
      | Invoke _, true => None
      | _, _ =>
          match step ev w with
          | Some (w', _) => run_after_validation evs' w'
          | None => None
          end
      end
  end.

(** [keeps p s]: started in store [s], [p] reaches its end or its first
    [await] in a store with the session invariant, and whenever it is
    resumed in a store with the invariant the same holds again.  (A program
    that spawns another is not covered.) *)
Fixpoint keeps (p : Async) (s : Store) : Prop :=
  match p with
  | Return => user_backed_by_token s
  | Throw _ => user_backed_by_token s
  | SetUser u k => keeps k (set_user u s)
  | SetToken t k => keeps k (set_token t s)
  | SetIsLoading b k => keeps k (set_isLoading b s)
  | CookiesGet _ k => forall v, keeps (k v) s
  | CookiesSet _ _ _ k => keeps k s
  | CookiesRemove _ k => keeps k s
  | ConsoleError _ _ k => keeps k s
  | Await _ k =>
      user_backed_by_token s
      /\ forall r s', user_backed_by_token s' -> keeps (k r) s'
  | Spawn _ _ => False
  end.

(** A parked continuation that keeps the invariant whenever it resumes. *)
Definition resumes_well (p : Origin * (AxiosResult -> Async)) : Prop :=
  forall r s, user_backed_by_token s -> keeps (snd p r) s.

(** The invariant of the tab that carries the session invariant through the
    event loop: either every parked continuation resumes well, or the only
    parked continuation is the initial validation, which finds no user and
    a token when it resumes. *)
Definition tab_invariant (w : World) : Prop :=
  user_backed_by_token (store w)
  /\ (mounted w = false -> store w = initial_store /\ pending w = [])
  /\ (Forall resumes_well (pending w)
      \/ (user (store w) = None
          /\ token (store w) <> None
          /\ exists kv, pending w = [(FromMount, kv)]
               /\ forall r s, user s = None -> token s <> None -> keeps (kv r) s)).

(** A sign-in call that fails: the transport fails, the backend rejects the
    request, or the payload lacks the user or the access token. *)
Definition signin_failed (r : AxiosResult) : Prop :=
  match r with
  | Rejected _ => True
  | Resolved d =>
      data_user d = None
      \/ data_access_token d = None
      \/ data_access_token d = Some ""
  end.

(* ===================================================================== *)
(** * The dashboard's task filter                                          *)
(* ===================================================================== *)

Module Task.

Record t : Type := mk {
  id : string;
  title : string;
  description : option string;
  completed : bool;
  created_at : string;
  updated_at : string;
  user_id : string
}.

End Task.

Module Dashboard.

(** ['all' | 'completed' | 'pending']. *)
Inductive Filter : Type := all | completed | pending.

(** [===] on filter values. *)
Definition filter_eqb (a b : Filter) : bool :=
  match a, b with
  | all, all | completed, completed | pending, pending => true
  | _, _ => false
  end.

Definition matchesFilter (filter : Filter) (task : Task.t) : bool :=
  filter_eqb filter all
  || (filter_eqb filter completed && Task.completed task)
  || (filter_eqb filter pending && negb (Task.completed task)).

Definition matchesSearch (searchQuery : string) (task : Task.t) : bool :=
  Js.includes (Js.toLowerCase (Task.title task)) (Js.toLowerCase searchQuery)
  || match Task.description task with
     | Some d =>
         Js.truthy (Task.description task)
         && Js.includes (Js.toLowerCase d) (Js.toLowerCase searchQuery)
     | None => false
     end.

(** [tasks.filter(task => matchesFilter && matchesSearch)]. *)
Definition filteredTasks (tasks : list Task.t) (filter : Filter)
    (searchQuery : string) : list Task.t :=
  List.filter (fun task => matchesFilter filter task && matchesSearch searchQuery task)
    tasks.

End Dashboard.

(** ** The vocabulary of the filter's specification *)

(** A task matches a status filter. *)
Definition has_status (f : Dashboard.Filter) (t : Task.t) : Prop :=
  match f with
  | Dashboard.all => True
  | Dashboard.completed => Task.completed t = true
  | Dashboard.pending => Task.completed t = false
  end.

(** Two strings are equal up to the case of their letters. *)
Definition same_ignoring_case (a b : string) : Prop :=
  Js.toLowerCase a = Js.toLowerCase b.

(** [q] occurs in [s], case-insensitively: some stretch of [s] equals [q]
    up to case. *)
Definition occurs_ignoring_case (q s : string) : Prop :=
  exists pre mid post : string,
    s = pre +:+ mid +:+ post /\ same_ignoring_case mid q.

(** [q] occurs case-insensitively in the title or in the description. *)
Definition search_hits (q : string) (t : Task.t) : Prop :=
  occurs_ignoring_case q (Task.title t)
  \/ exists d, Task.description t = Some d /\ occurs_ignoring_case q d.

(** ** ASCII text, and case-insensitivity said without the code's folding *)

(** Every byte of [s] is an ASCII character. *)
Fixpoint is_ascii (s : string) : bool :=
  match s with
  | EmptyString => true
  | String c s' => (nat_of_ascii c <? 128)%nat && is_ascii s'
  end.

(** Title and description of a task are ASCII text. *)
Definition task_is_ascii (t : Task.t) : bool :=
  is_ascii (Task.title t)
  && match Task.description t with
     | Some d => is_ascii d
     | None => true
     end.

(** An ASCII capital letter. *)
Definition is_upper (c : ascii) : bool :=
  (65 <=? nat_of_ascii c)%nat && (nat_of_ascii c <=? 90)%nat.

(** Two characters are the same letter up to case: equal, or one is a
    capital letter and the other the small letter 32 places after it. *)
Definition same_letter (a b : ascii) : Prop :=
  a = b
  \/ (is_upper a = true /\ nat_of_ascii b = nat_of_ascii a + 32)
  \/ (is_upper b = true /\ nat_of_ascii a = nat_of_ascii b + 32).

(** Two strings of the same length, letter by letter the same up to case. *)
Inductive same_up_to_case : string -> string -> Prop :=
| same_empty : same_up_to_case "" ""
| same_cons a b s t :
    same_letter a b -> same_up_to_case s t ->
    same_up_to_case (String a s) (String b t).

(** [q] occurs in [s] case-insensitively. *)
Definition occurs_case_insensitively (q s : string) : Prop :=
  exists pre mid post : string,
    s = pre +:+ mid +:+ post /\ same_up_to_case mid q.

(** [q] occurs case-insensitively in the title or in the description. *)
Definition search_matches (q : string) (t : Task.t) : Prop :=
  occurs_case_insensitively q (Task.title t)
  \/ exists d, Task.description t = Some d /\ occurs_case_insensitively q d.

(** ** What the dashboard hands to its table *)

Module DashboardView.

(** [filteredTasks.slice(0, 5)], the [tasks] of the table. *)
Definition shownTasks (tasks : list Task.t) (filter : Dashboard.Filter)
    (searchQuery : string) : list Task.t :=
  firstn 5 (Dashboard.filteredTasks tasks filter searchQuery).

(** The rows of the table, when the page renders the table: not while
    loading, not without a user, not when [error] is set. *)
Definition tableRows (authLoading loading : bool) (user : option User.t)
    (error : option string) (tasks : list Task.t) (filter : Dashboard.Filter)
    (searchQuery : string) : option (list Task.t) :=
  if authLoading || loading then None
  else if negb (Js.truthy_obj user) then None
  else if Js.truthy error then None
  else Some (shownTasks tasks filter searchQuery).

End DashboardView.

(* ===================================================================== *)
(** * Reasoning about programs of the provider                             *)
(* ===================================================================== *)

(** [wp I p Q s j]: started with store [s] and cookie store [j], the
    synchronous run of [p] ends (at its end or at its first [await]) in a
    state with [Q]; and whenever a parked continuation is resumed in a state
    with [I], its run ends in a state with [I] again. *)
Fixpoint wp (I : Store -> gmap string Cookie -> Prop) (p : Async)
    (Q : Store -> gmap string Cookie -> Prop)
    (s : Store) (j : gmap string Cookie) {struct p} : Prop :=
  match p with
  | Return => Q s j
  | Throw _ => Q s j
  | SetUser u k => wp I k Q (set_user u s) j
  | SetToken t k => wp I k Q (set_token t s) j
  | SetIsLoading b k => wp I k Q (set_isLoading b s) j
  | CookiesGet n k => wp I (k (Cookies.get n j)) Q s j
  | CookiesSet n v e k => wp I k Q s (Cookies.set n v e j)
  | CookiesRemove n k => wp I k Q s (Cookies.remove n j)
  | ConsoleError _ _ k => wp I k Q s j
  | Await _ k => Q s j /\ forall r s' j', I s' j' -> wp I (k r) I s' j'
  | Spawn p' k => wp I p' (fun s1 j1 => wp I k Q s1 j1) s j
  end.

(** A parked continuation that re-establishes [I] whenever it resumes. *)
Definition resumes (I : Store -> gmap string Cookie -> Prop)
    (p : Origin * (AxiosResult -> Async)) : Prop :=
  forall r s j, I s j -> wp I (snd p r) I s j.

(** The in-memory token is the stored token (an empty cookie is no token). *)
Definition token_mirrors_cookie (s : Store) (j : gmap string Cookie) : Prop :=
  token s = if Js.truthy (Cookies.get "token" j) then Cookies.get "token" j else None.

(** Every cookie other than ['token'] is as it was in [jar0]. *)
Definition other_cookies_as_in (jar0 : gmap string Cookie)
    (_ : Store) (j : gmap string Cookie) : Prop :=
  forall n, n <> "token" -> j !! n = jar0 !! n.

(** A payload that lacks the user or the access token. *)
Definition payload_incomplete (d : ResponseData) : Prop :=
  data_user d = None
  \/ data_access_token d = None
  \/ data_access_token d = Some "".

(** The responses under which [signup] fails: the sign-up call is rejected,
    or its payload is incomplete and the sign-in it falls back to fails. *)
Definition signup_failed (rs : list AxiosResult) : Prop :=
  match rs with
  | [Rejected _] => True
  | [Resolved d; r2] => payload_incomplete d /\ signin_failed r2
  | _ => False
  end.

(** A continuation parked by [login] or [signup]. *)
Definition is_sign_call (p : Origin * (AxiosResult -> Async)) : bool :=
  match fst p with
  | FromLogin | FromSignup => true
  | _ => false
  end.

(** [quiet p]: [p] never calls [setIsLoading]. *)
Fixpoint quiet (p : Async) : Prop :=
  match p with
  | Return => True
  | Throw _ => True
  | SetUser _ k => quiet k
  | SetToken _ k => quiet k
  | SetIsLoading _ _ => False
  | CookiesGet _ k => forall v, quiet (k v)
  | CookiesSet _ _ _ k => quiet k
  | CookiesRemove _ k => quiet k
  | ConsoleError _ _ k => quiet k
  | Await _ k => forall r, quiet (k r)
  | Spawn _ _ => False
  end.

(** [idles p l]: with [isLoading = l] at its start, every run of [p] that
    reaches the end of [p] leaves [isLoading = false]. *)
Fixpoint idles (p : Async) (l : bool) : Prop :=
  match p with
  | Return => l = false
  | Throw _ => l = false
  | SetUser _ k => idles k l
  | SetToken _ k => idles k l
  | SetIsLoading b k => idles k b
  | CookiesGet _ k => forall v, idles (k v) l
  | CookiesSet _ _ _ k => idles k l
  | CookiesRemove _ k => idles k l
  | ConsoleError _ _ k => idles k l
  | Await _ k => forall r l', idles (k r) l'
  | Spawn _ _ => False
  end.

(** What a parked continuation does to [isLoading] when it resumes: one
    parked by [login] or [signup] ends with it false (or parks again), any
    other leaves it alone. *)
Definition flag_ok (p : Origin * (AxiosResult -> Async)) : Prop :=
  if is_sign_call p then forall r l, idles (snd p r) l
  else forall r, quiet (snd p r).

(** The user an operation of the client is scoped to, if any. *)
Definition task_user (op : Operation) : option string :=
  match op with
  | OpGetTasks u _ | OpCreateTask u _ | OpGetTask u _ | OpUpdateTask u _ _
  | OpDeleteTask u _ | OpToggleComplete u _ _ | OpMarkTaskComplete u _ => Some u
  | _ => None
  end.

(* ===================================================================== *)
(** * Strings of form fields                                               *)
(* ===================================================================== *)

(** The white space and line terminators [trim] strips from an ASCII
    string: TAB, LF, VT, FF, CR and the space.  (The built-in function also
    strips the Unicode spaces, none of which is an ASCII character.) *)
Definition isWhiteSpace (c : ascii) : bool :=
  let n := nat_of_ascii c in
  ((9 <=? n)%nat && (n <=? 13)%nat) || (n =? 32)%nat.

(** [s.trimStart()]. *)
Fixpoint trimStart (s : string) : string :=
  match s with
  | EmptyString => EmptyString
  | String c s' => if isWhiteSpace c then trimStart s' else s
  end.

(** [s.trimEnd()]. *)
Fixpoint trimEnd (s : string) : string :=
  match s with
  | EmptyString => EmptyString
  | String c s' =>
      match trimEnd s' with
      | EmptyString => if isWhiteSpace c then EmptyString else String c EmptyString
      | r => String c r
      end
  end.

(** [s.trim()]. *)
Definition trim (s : string) : string := trimEnd (trimStart s).

(** [s || undefined]. *)
Definition or_undefined (s : string) : option string :=
  if Js.truthy (Some s) then Some s else None.


(** Every character of [s] is white space. *)
Fixpoint blank (s : string) : bool :=
  match s with
  | EmptyString => true
  | String c s' => isWhiteSpace c && blank s'
  end.

(** The first and the last character of a string, if any. *)
Definition first_char (s : string) : option ascii :=
  match s with
  | EmptyString => None
  | String c _ => Some c
  end.

Fixpoint last_char (s : string) : option ascii :=
  match s with
  | EmptyString => None
  | String c EmptyString => Some c
  | String _ s' => last_char s'
  end.

(* ===================================================================== *)
(** * Views: requests built by forms and cards                             *)
(* ===================================================================== *)

(** The argument of a [fetch] call. *)
Record FetchRequest : Type := mkFetch {
  fetch_url : string;
  fetch_method : Method;
  fetch_headers : gmap string string;
  fetch_credentials : option string;
  fetch_body : option Js.Json
}.

Module TaskForm.

(** [handleSubmit]: the request it sends, if it sends one. *)
Definition handleSubmit (title description : string) : option FetchRequest :=
  if negb (Js.truthy (Some (trim title))) then None
  else
    let taskData :=
      {| tc_title := trim title;
         tc_description := or_undefined (trim description);
         tc_completed := Some false |} in
    Some {| fetch_url := "/api/tasks";
            fetch_method := POST;
            fetch_headers := {[ "Content-Type" := "application/json" ]};
            fetch_credentials := Some "include";
            fetch_body := Some (json_of_create taskData) |}.

End TaskForm.

Module TaskList.


(** [handleToggleComplete(taskId)]. *)
Definition handleToggleComplete (taskId : string) : FetchRequest :=
  {| fetch_url := "/api/tasks/" +:+ taskId +:+ "/complete";
     fetch_method := PATCH;
     fetch_headers := ∅;
     fetch_credentials := Some "include";
     fetch_body := None |}.


End TaskList.

Module CreateTask.

(** [handleSubmit] of the create page: the call it makes, if any. *)
Definition handleSubmit (user : option User.t)
    (title description : string) (completed : bool) : option Call :=
  match user with
  | None => None
  | Some u =>
      Some (taskApi.createTask (User.id u)
              {| tc_title := trim title;
                 tc_description := or_undefined (trim description);
                 tc_completed := Some completed |})
  end.

End CreateTask.

Module TaskCard.

(** [handleToggleComplete] of a task card. *)
Definition handleToggleComplete (user : option User.t) (task : Task.t) : option Call :=
  match user with
  | None => None
  | Some u =>
      Some (taskApi.toggleComplete (User.id u) (Task.id task)
              (Some (negb (Task.completed task))))
  end.

End TaskCard.

Module Stats.

(** The three counters of the dashboard. *)
Definition totalTasks (tasks : list Task.t) : Z := Z.of_nat (length tasks).

Definition completedTasks (tasks : list Task.t) : Z :=
  Z.of_nat (length (List.filter (fun task => Task.completed task) tasks)).

Definition pendingTasks (tasks : list Task.t) : Z :=
  totalTasks tasks - completedTasks tasks.

End Stats.

Module CompletedTasks.

(** [tasks.filter(task => title matches || description matches)]. *)
Definition filteredTasks (tasks : list Task.t) (searchQuery : string) : list Task.t :=
  List.filter
    (fun task =>
       Js.includes (Js.toLowerCase (Task.title task)) (Js.toLowerCase searchQuery)
       || match Task.description task with
          | Some d =>
              Js.truthy (Task.description task)
              && Js.includes (Js.toLowerCase d) (Js.toLowerCase searchQuery)
          | None => false
          end)
    tasks.

(** The rows of the page's table, when it renders the table: not while
    loading, not without a user, not when [error] is set, and not for an
    empty list. *)
Definition tableRows (authLoading loading : bool) (user : option User.t)
    (error : option string) (tasks : list Task.t) (searchQuery : string)
    : option (list Task.t) :=
  if authLoading || loading then None
  else if negb (Js.truthy_obj user) then None
  else if Js.truthy error then None
  else if (0 <? length (filteredTasks tasks searchQuery))%nat
       then Some (filteredTasks tasks searchQuery)
       else None.

End CompletedTasks.

Module Home.

(** The route the landing page pushes, if any. *)
Definition redirect (s : Store) : option string :=
  if negb (isLoading s) then
    if Js.truthy_obj (user s) then Some "/dashboard" else Some "/auth/signin"
  else None.

End Home.

(** The guard of the protected pages: [!authLoading && !user]. *)
Definition redirects_to_signin (s : Store) : bool :=
  negb (isLoading s) && negb (Js.truthy_obj (user s)).

(* ===================================================================== *)
(** * The chat page                                                        *)
(* ===================================================================== *)

Module Chat.

Inductive Role : Type := user | assistant.

Record Message : Type := mkMessage {
  role : Role;
  content : string
}.

(** The [useState] cells of the page. *)
Record State : Type := mkState {
  messages : list Message;
  input : string;
  isLoading : bool;
  error : option string;
  conversationId : option string
}.

(** How [fetch('/api/chat')] and the reading of its body end: an exception
    with a message (the call or [response.json()] failed), a response that
    is not [ok] with the [detail] of its body, or an [ok] response. *)
Inductive FetchResult : Type :=
| Threw (message : string)
| NotOk (detail : option string)
| Ok (response conversation_id : string).

(** [{ message: input, ...(conversationId && { conversation_id }) }]. *)
Definition requestBody (input : string) (conversationId : option string) : Js.Json :=
  Js.object [("message", Some (Js.JStr input));
             ("conversation_id",
              if Js.truthy conversationId then Js.JStr <$> conversationId else None)].

(** [handleSubmit] up to its [await]: the request and the state it leaves,
    or nothing when the guard returns. *)
Definition handleSubmit (user_id : option string) (s : State)
    : option (FetchRequest * State) :=
  if negb (Js.truthy (Some (trim (input s)))) || negb (Js.truthy user_id) then None
  else
    Some ({| fetch_url := "/api/chat";
             fetch_method := POST;
             fetch_headers := {[ "Content-Type" := "application/json" ]};
             fetch_credentials := None;
             fetch_body := Some (requestBody (input s) (conversationId s)) |},
          {| messages := messages s ++ [mkMessage user (input s)];
             input := "";
             isLoading := true;
             error := None;
             conversationId := conversationId s |}).

(** [handleSubmit] from its [await] on. *)
Definition settle (r : FetchResult) (s : State) : State :=
  match r with
  | Ok response conversation_id =>
      {| messages := messages s ++ [mkMessage assistant response];
         input := input s;
         isLoading := false;
         error := error s;
         conversationId := Some conversation_id |}
  | NotOk detail =>
      {| messages := messages s;
         input := input s;
         isLoading := false;
         error := Some (if Js.truthy detail
                        then default "" detail
                        else "Failed to get a response from the chatbot.");
         conversationId := conversationId s |}
  | Threw message =>
      {| messages := messages s;
         input := input s;
         isLoading := false;
         error := Some message;
         conversationId := conversationId s |}
  end.

End Chat.

(* ===================================================================== *)
(** * The auth shim: sign-in, sign-up, sign-out                            *)
(* ===================================================================== *)

Module AuthClient.

(** What [signIn.email] and [signUp.email] return. *)
Record Result : Type := mkResult {
  data : option ResponseData;
  error : option string
}.

(** [signIn.email]: the call it awaits. *)
Definition signIn_email_call (c : Credentials) : Call := authApi.signin c.

(** [signIn.email]: what it does once the call has settled. *)
Definition signIn_email (r : AxiosResult) (jar : gmap string Cookie)
    : Result * gmap string Cookie :=
  match r with
  | Resolved response =>
      if Js.truthy_obj (data_user response)
         && Js.truthy (data_access_token response) then
        ({| data := Some response; error := None |},
         Cookies.set "token" (default "" (data_access_token response)) 7 jar)
      else
        ({| data := None; error := Some "No user data received" |}, jar)
  | Rejected _ =>
      ({| data := None; error := Some "Invalid email or password" |}, jar)
  end.

(** [signUp.email]: the call it awaits. *)
Definition signUp_email_call (c : Credentials) : Call := authApi.signup c.

(** [signUp.email]: what it does once the call has settled. *)
Definition signUp_email (r : AxiosResult) (jar : gmap string Cookie)
    : Result * gmap string Cookie :=
  match r with
  | Resolved response =>
      if Js.truthy_obj (data_user response)
         && Js.truthy (data_access_token response) then
        ({| data := Some response; error := None |},
         Cookies.set "token" (default "" (data_access_token response)) 7 jar)
      else
        ({| data := None; error := Some "No user data received" |}, jar)
  | Rejected _ =>
      ({| data := None; error := Some "Signup failed" |}, jar)
  end.

(** [signOut]: the call it awaits. *)
Definition signOut_call : Call := authApi.signout.

(** [signOut]: what it does once the call has settled, to the cookie store
    and to the console. *)
Definition signOut (r : AxiosResult) (jar : gmap string Cookie)
    (console : list (string * Thrown))
    : gmap string Cookie * list (string * Thrown) :=
  match r with
  | Resolved _ => (Cookies.remove "token" jar, console)
  | Rejected e =>
      (Cookies.remove "token" jar, console ++ [("Logout error:", AxiosFailure e)])
  end.

End AuthClient.

(** What [signIn.email] and [signUp.email] of the shim promise, for the
    function [sign] and its message [rejected] for a rejected call. *)
Definition shim_sign_contract
    (sign : AxiosResult -> gmap string Cookie -> AuthClient.Result * gmap string Cookie)
    (rejected : string) (r : AxiosResult) (jar0 : gmap string Cookie) : Prop :=
  let res := fst (sign r jar0) in
  let jar1 := snd (sign r jar0) in
  (AuthClient.error res = None <-> is_Some (AuthClient.data res))
  /\ (AuthClient.error res = None
      <-> exists d u t, r = Resolved d /\ data_user d = Some u
                        /\ data_access_token d = Some t /\ t <> "")
  /\ (forall d t, r = Resolved d -> AuthClient.error res = None ->
        data_access_token d = Some t ->
        AuthClient.data res = Some d
        /\ jar1 = <["token" := mkCookie t 7]> jar0
        /\ Auth.isAuthenticated (Auth.useSession jar1) = true
        /\ (Auth.session_token <$> (Auth.session <$> Auth.data (Auth.useSession jar1)))
           = Some t)
  /\ (AuthClient.error res <> None -> jar1 = jar0)
  /\ (forall d, r = Resolved d -> AuthClient.error res <> None ->
        AuthClient.error res = Some "No user data received")
  /\ (forall e, r = Rejected e -> AuthClient.error res = Some rejected).

(* ===================================================================== *)
(** * Properties of the request client                                     *)
(* ===================================================================== *)

Lemma interceptor_authorization (jar : gmap string Cookie) (config : AxiosRequestConfig) :
  headers config !! "Authorization" = None ->
  headers (api.request_interceptor jar config) !! "Authorization" =
    match Cookies.get "token" jar with
    | Some t => if String.eqb t "" then None else Some ("Bearer " +:+ t)
    | None => None
    end.
Proof.
  intros Hnone. unfold api.request_interceptor.
  destruct (Cookies.get "token" jar) as [t|]; simpl; [|exact Hnone].
  destruct (String.eqb t ""); simpl; [exact Hnone|].
  apply lookup_insert_eq.
Qed.

Lemma create_no_authorization (env0 : option string) (c : Call) :
  headers (api.create env0 c) !! "Authorization" = None.
Proof. reflexivity. Qed.

(** C2. Whatever operation of [taskApi] or [authApi] is called, in whatever
    state of the tab, the request that is sent is the one the interceptor
    builds from the cookie store at that moment: when the ['token'] cookie
    holds a (non-empty) token [t] the request carries
    [Authorization: Bearer t]; when the cookie is absent (or holds the empty
    string) it carries no [Authorization] header.  The provider's in-memory
    [token] plays no part. *)
Theorem request_carries_cookie_token (op : Operation) (w : World) :
  exists req,
    sent (send (call_of op) w) = sent w ++ [req]
    /\ req = api.request (env w) (jar w) (call_of op)
    /\ headers req !! "Authorization" =
         match Cookies.get "token" (jar w) with
         | Some t => if String.eqb t "" then None else Some ("Bearer " +:+ t)
         | None => None
         end.
Proof.
  eexists. split; [reflexivity|]. split; [reflexivity|].
  unfold api.request. apply interceptor_authorization, create_no_authorization.
Qed.

(** C9. [markTaskComplete(userId, taskId)] and [toggleComplete(userId,
    taskId)] with [completed] left to its default are the same call:
    [PATCH /api/{userId}/tasks/{taskId}/complete] with body
    [{completed: true}], hence the same request in every environment. *)
Theorem markTaskComplete_is_default_toggleComplete (userId taskId : string) :
  taskApi.markTaskComplete userId taskId = taskApi.toggleComplete userId taskId None
  /\ call_method (taskApi.markTaskComplete userId taskId) = PATCH
  /\ call_url (taskApi.markTaskComplete userId taskId)
       = "/api/" +:+ userId +:+ "/tasks/" +:+ taskId +:+ "/complete"
  /\ call_data (taskApi.markTaskComplete userId taskId)
       = Some (Js.JObj [("completed", Js.JBool true)])
  /\ forall env0 jar0,
       api.request env0 jar0 (taskApi.markTaskComplete userId taskId)
       = api.request env0 jar0 (taskApi.toggleComplete userId taskId None).
Proof. repeat split. Qed.

(* ===================================================================== *)
(** * Properties of the auth shim                                          *)
(* ===================================================================== *)

Lemma truthy_spec (o : option string) :
  Js.truthy o = true <-> exists t, o = Some t /\ t <> "".
Proof.
  destruct o as [t|]; simpl.
  - rewrite negb_true_iff. split.
    + intros H. exists t. split; [reflexivity|].
      intros ->. discriminate.
    + intros (t' & [= <-] & Hne). apply String.eqb_neq. exact Hne.
  - split; [discriminate|]. intros (t & [=] & _).
Qed.

(** C10, as the code has it. [useSession] always returns [isLoading=false]
    and [isPending=false] and never a resolved user; [isAuthenticated] is
    true exactly when the ['token'] cookie holds a non-empty value, and
    exactly then [data] is present, with the raw cookie value as the
    session's token and id. *)
Theorem useSession_reflects_cookie (jar0 : gmap string Cookie) :
  Auth.isLoading (Auth.useSession jar0) = false
  /\ Auth.isPending (Auth.useSession jar0) = false
  /\ (Auth.isAuthenticated (Auth.useSession jar0) = true
      <-> exists t, Cookies.get "token" jar0 = Some t /\ t <> "")
  /\ (is_Some (Auth.data (Auth.useSession jar0))
      <-> Auth.isAuthenticated (Auth.useSession jar0) = true)
  /\ forall d, Auth.data (Auth.useSession jar0) = Some d ->
       Auth.user d = None
       /\ Cookies.get "token" jar0 = Some (Auth.session_token (Auth.session d))
       /\ Auth.session_id (Auth.session d) = Auth.session_token (Auth.session d).
Proof.
  unfold Auth.useSession. simpl. rewrite negb_involutive.
  split; [reflexivity|]. split; [reflexivity|]. split; [apply truthy_spec|].
  destruct (Cookies.get "token" jar0) as [t|] eqn:Hget; simpl.
  - destruct (String.eqb t ""); simpl.
    + split; [split; [intros [? [=]]|discriminate]|discriminate].
    + split; [split; eauto|]. intros d [= <-]. simpl. auto.
  - split; [split; [intros [? [=]]|discriminate]|discriminate].
Qed.

(** C10, counterexample. A ['token'] cookie that is present with the empty
    string as its value: [isAuthenticated] is false and no session token is
    exposed. *)
Lemma useSession_empty_cookie :
  let jar0 : gmap string Cookie := {[ "token" := mkCookie "" 7 ]} in
  is_Some (jar0 !! "token")
  /\ Cookies.get "token" jar0 = Some ""
  /\ Auth.isAuthenticated (Auth.useSession jar0) = false
  /\ Auth.data (Auth.useSession jar0) = None.
Proof. vm_compute. split; [eauto|]. repeat split. Qed.

(* ===================================================================== *)
(** * Properties of single operations of the session store                 *)
(* ===================================================================== *)

(** Resuming the continuation that was parked last. *)
Lemma settle_parked (o : Origin) (k : AxiosResult -> Async) (r : AxiosResult)
    (c : Call) (w : World) :
  let w1 := with_pending (fun ps => ps ++ [(o, k)]) (send c w) in
  settle (length (pending w1) - 1) r w1 = Some (exec o (k r) (send c w)).
Proof.
  destruct w as [e m s j co se ps]. unfold settle, with_pending, send. simpl.
  rewrite length_app. simpl.
  replace (length ps + 1 - 1) with (length ps + 0) by lia.
  rewrite lookup_app_r by lia.
  replace (length ps + 0 - length ps) with 0 by lia. simpl.
  do 3 f_equal.
  replace (length ps + 0) with (length ps) by lia.
  clear. induction ps as [|p ps IH]; simpl; [reflexivity|]. f_equal. exact IH.
Qed.

(** An operation that parks at its first call goes on with the response. *)
Lemma perform_parked (a : Action) (o : Origin) (k : AxiosResult -> Async)
    (c : Call) (w w1 : World) (r : AxiosResult) (rs : list AxiosResult) :
  start a w = (with_pending (fun ps => ps ++ [(o, k)]) (send c w1), Suspended) ->
  perform a (r :: rs) w = feed rs (exec o (k r) (send c w1)).
Proof.
  intros Hstart. unfold perform. rewrite Hstart.
  cbn [feed snd fst]. rewrite settle_parked. reflexivity.
Qed.

(** With a stored (non-empty) token the mount effect sets [token], sends
    the session request, parks the validation and ends. *)
Lemma initialize_with_token (env0 : option string) (jar0 : gmap string Cookie)
    (t : string) :
  Cookies.get "token" jar0 = Some t -> t <> "" ->
  exists w,
    step Mount (boot env0 jar0) = Some (w, Fulfilled)
    /\ store w = {| user := None; token := Some t; isLoading := false |}
    /\ sent w = [api.request env0 jar0 authApi.session]
    /\ validation_in_flight w = true
    /\ jar w = jar0.
Proof.
  intros Hget Hne. apply String.eqb_neq in Hne. eexists.
  unfold step, boot, initialize. cbn [mounted set_mounted exec jar].
  rewrite Hget. simpl. rewrite Hne. simpl. repeat split.
Qed.

(** C3. When no ['token'] cookie is stored, the mount effect runs to its
    end at once: [isLoading=false], [user=null], [token=null], nothing is
    sent (so [/api/auth/session] is never called), nothing is left waiting
    and the cookie store is untouched. *)
Theorem initialize_without_token (env0 : option string) (jar0 : gmap string Cookie) :
  jar0 !! "token" = None ->
  exists w,
    step Mount (boot env0 jar0) = Some (w, Fulfilled)
    /\ store w = {| user := None; token := None; isLoading := false |}
    /\ sent w = []
    /\ pending w = []
    /\ jar w = jar0.
Proof.
  intros Hnone. eexists.
  unfold step, boot, initialize. cbn [mounted set_mounted exec jar].
  unfold Cookies.get. rewrite Hnone. simpl. repeat split.
Qed.

Lemma initialize_without_token_witness :
  exists w,
    step Mount (boot None ∅) = Some (w, Fulfilled)
    /\ store w = {| user := None; token := None; isLoading := false |}
    /\ sent w = []
    /\ pending w = []
    /\ jar w = ∅.
Proof. apply (initialize_without_token None ∅). reflexivity. Defined.

(** C4, the code at a stored token ["abc"]. The mount effect ends in the
    very run that sends [GET /api/auth/session]: [isLoading] is already
    false while the validation is still waiting for its response. *)
Theorem initialize_stops_loading_before_validation :
  exists w,
    step Mount (boot None {[ "token" := mkCookie "abc" 7 ]}) = Some (w, Fulfilled)
    /\ isLoading (store w) = false
    /\ token (store w) = Some "abc"
    /\ user (store w) = None
    /\ validation_in_flight w = true
    /\ (url <$> sent w) = ["/api/auth/session"].
Proof. eexists. vm_compute. repeat split. Qed.

(** C5. When the sign-in response carries both a user and a (non-empty)
    access token, [login] is fulfilled with [user] and [token] set to the
    response's values, [isLoading=false], and the token written to the
    cookie ['token'] with a lifetime of 7 days; no other cookie changes. *)
Theorem login_success (w : World) (email password : string) (u : User.t) (t : string) :
  t <> "" ->
  exists w',
    perform (Login email password)
      [Resolved {| data_user := Some u; data_access_token := Some t |}] w
      = (w', Fulfilled)
    /\ store w' = {| user := Some u; token := Some t; isLoading := false |}
    /\ jar w' = <["token" := mkCookie t 7]> (jar w)
    /\ jar w' !! "token" = Some (mkCookie t 7)
    /\ sent w' = sent w ++
         [api.request (env w) (jar w) (authApi.signin (mkCredentials email password))]
    /\ pending w' = pending w.
Proof.
  intros Hne. apply String.eqb_neq in Hne.
  eexists. erewrite perform_parked by reflexivity.
  simpl. rewrite Hne. simpl. repeat split. apply lookup_insert_eq.
Qed.

Lemma login_success_witness :
  exists w',
    perform (Login "a@b.com" "secret")
      [Resolved {| data_user := Some (User.mk "1" "a@b.com" None None None None);
                   data_access_token := Some "tok" |}]
      (boot None ∅)
      = (w', Fulfilled)
    /\ store w' = {| user := Some (User.mk "1" "a@b.com" None None None None);
                     token := Some "tok"; isLoading := false |}
    /\ jar w' = <["token" := mkCookie "tok" 7]> (jar (boot None ∅))
    /\ jar w' !! "token" = Some (mkCookie "tok" 7)
    /\ sent w' = sent (boot None ∅) ++
         [api.request (env (boot None ∅)) (jar (boot None ∅))
            (authApi.signin (mkCredentials "a@b.com" "secret"))]
    /\ pending w' = pending (boot None ∅).
Proof. apply login_success. discriminate. Defined.

(** C6. Whichever way the sign-in call fails, [login] leaves [user],
    [token] and the cookie store as they were, returns [isLoading] to
    false, and is rejected with the one error [Invalid email or password]:
    the caller's observation does not depend on the kind of failure. *)
Theorem login_failure (w : World) (email password : string) (r : AxiosResult) :
  signin_failed r ->
  exists w',
    perform (Login email password) [r] w
      = (w', Failed (JsError "Invalid email or password"))
    /\ user (store w') = user (store w)
    /\ token (store w') = token (store w)
    /\ jar w' = jar w
    /\ isLoading (store w') = false
    /\ pending w' = pending w.
Proof.
  intros Hfail.
  erewrite perform_parked by reflexivity.
  destruct r as [[du dt]|e]; simpl in *.
  - destruct Hfail as [-> | [-> | ->]]; simpl.
    + eexists. repeat split.
    + rewrite andb_false_r. simpl. eexists. repeat split.
    + rewrite andb_false_r. simpl. eexists. repeat split.
  - eexists. repeat split.
Qed.

Lemma login_failure_witness :
  exists w',
    perform (Login "a@b.com" "wrong") [Rejected (BadStatus 401)] (boot None ∅)
      = (w', Failed (JsError "Invalid email or password"))
    /\ user (store w') = user (store (boot None ∅))
    /\ token (store w') = token (store (boot None ∅))
    /\ jar w' = jar (boot None ∅)
    /\ isLoading (store w') = false
    /\ pending w' = pending (boot None ∅).
Proof. apply login_failure. simpl. exact I. Defined.

(** C7. However the sign-out call settles, [logout] is fulfilled (never
    rejected) with [user=null], [token=null] and the ['token'] cookie
    removed; a failed sign-out leaves one line on the console and nothing
    else. *)
Theorem logout_always_clears (w : World) (r : AxiosResult) :
  exists w',
    perform Logout [r] w = (w', Fulfilled)
    /\ user (store w') = None
    /\ token (store w') = None
    /\ jar w' = delete "token" (jar w)
    /\ jar w' !! "token" = None
    /\ sent w' = sent w ++ [api.request (env w) (jar w) authApi.signout]
    /\ console w' = console w ++
         match r with
         | Rejected e => [("Logout error:", AxiosFailure e)]
         | Resolved _ => []
         end.
Proof.
  erewrite perform_parked by reflexivity.
  destruct r as [d|e]; simpl.
  - eexists. repeat split; [apply lookup_delete_eq | symmetry; apply app_nil_r].
  - eexists. repeat split. apply lookup_delete_eq.
Qed.

(* ===================================================================== *)
(** * The session invariant along the event loop                           *)
(* ===================================================================== *)

Lemma run_reachable (env0 : option string) (jar0 : gmap string Cookie)
    (evs : list Event) (w w' : World) :
  reachable env0 jar0 w -> run evs w = Some w' -> reachable env0 jar0 w'.
Proof.
  revert w. induction evs as [|ev evs IH]; intros w Hw Hrun; simpl in Hrun.
  - congruence.
  - destruct (step ev w) as [[w1 o]|] eqn:Hstep; [|discriminate].
    apply (IH w1); [|exact Hrun].
    eapply reach_step; [exact Hw | exact I | exact Hstep].
Qed.

Lemma run_after_validation_reachable (env0 : option string) (jar0 : gmap string Cookie)
    (evs : list Event) (w w' : World) :
  reachable_under after_validation env0 jar0 w ->
  run_after_validation evs w = Some w' ->
  reachable_under after_validation env0 jar0 w'.
Proof.
  revert w. induction evs as [|ev evs IH]; intros w Hw Hrun; simpl in Hrun.
  - congruence.
  - assert (Hguard : after_validation w ev).
    { destruct ev; simpl; try exact I.
      destruct (validation_in_flight w); [discriminate | reflexivity]. }
    assert (Hrun' : match step ev w with
                    | Some (w1, _) => run_after_validation evs w1
                    | None => None
                    end = Some w').
    { destruct ev; try exact Hrun.
      destruct (validation_in_flight w); [discriminate | exact Hrun]. }
    destruct (step ev w) as [[w1 o]|] eqn:Hstep; [|discriminate].
    apply (IH w1); [|exact Hrun'].
    eapply reach_step; [exact Hw | exact Hguard | exact Hstep].
Qed.

(** C1, the code at a failing schedule. A token is stored; the mount effect
    starts the validation without awaiting it; [logout] is invoked and its
    sign-out call settles first, clearing token and user; then the session
    response arrives with a user and [validateToken] sets it. The store ends
    with a user and no token. *)
Lemma user_without_token_reachable :
  let u := User.mk "1" "a@b.com" None None None None in
  let jar0 : gmap string Cookie := {[ "token" := mkCookie "tok" 7 ]} in
  exists w,
    run [Mount;
         Invoke Logout;
         Settle 1 (Resolved {| data_user := None; data_access_token := None |});
         Settle 0 (Resolved {| data_user := Some u; data_access_token := None |})]
        (boot None jar0) = Some w
    /\ reachable None jar0 w
    /\ user (store w) = Some u
    /\ token (store w) = None
    /\ ~ user_backed_by_token (store w).
Proof.
  intros u jar0.
  destruct (run [Mount; Invoke Logout;
                 Settle 1 (Resolved {| data_user := None; data_access_token := None |});
                 Settle 0 (Resolved {| data_user := Some u; data_access_token := None |})]
                (boot None jar0)) as [w|] eqn:Hrun; [|vm_compute in Hrun; discriminate].
  exists w. split; [reflexivity|].
  split; [eapply run_reachable; [apply reach_boot | exact Hrun]|].
  vm_compute in Hrun. injection Hrun as <-. simpl.
  split; [reflexivity|]. split; [reflexivity|].
  intros H. apply H; [discriminate | reflexivity].
Qed.

(** The same defect at a second schedule. A stale token is stored; [login]
    is invoked while the validation is in flight and succeeds; then the
    session call, sent with the stale token, is rejected and
    [validateToken]'s failure path removes the cookie and the token but not
    the user: a user without a token, and the cookie of the fresh login is
    gone. *)
Lemma late_validation_undoes_login :
  let u := User.mk "1" "a@b.com" None None None None in
  let jar0 : gmap string Cookie := {[ "token" := mkCookie "stale" 7 ]} in
  exists w,
    run [Mount;
         Invoke (Login "a@b.com" "pw");
         Settle 1 (Resolved {| data_user := Some u; data_access_token := Some "fresh" |});
         Settle 0 (Rejected (BadStatus 401))]
        (boot None jar0) = Some w
    /\ user (store w) = Some u
    /\ token (store w) = None
    /\ jar w !! "token" = None.
Proof.
  intros u jar0. eexists. split; [vm_compute; reflexivity|]. repeat split.
Qed.

(** A synchronous run of a program that keeps the invariant ends in a store
    with the invariant and parks at most one continuation, which resumes
    well. *)
Lemma exec_keeps (p : Async) (o : Origin) (w : World) :
  keeps p (store w) ->
  user_backed_by_token (store (fst (exec o p w)))
  /\ mounted (fst (exec o p w)) = mounted w
  /\ (pending (fst (exec o p w)) = pending w
      \/ exists k, pending (fst (exec o p w)) = pending w ++ [(o, k)]
                   /\ resumes_well (o, k)).
Proof.
  revert w.
  induction p as [ | e | u k IH | t k IH | b k IH | n k IH | n v e k IH
                 | n k IH | l e k IH | c k IH | p' IHp' k IH ];
    intros w Hk; simpl in *.
  - auto.
  - auto.
  - apply (IH (with_store (set_user u) w)). exact Hk.
  - apply (IH (with_store (set_token t) w)). exact Hk.
  - apply (IH (with_store (set_isLoading b) w)). exact Hk.
  - apply (IH _ w). apply Hk.
  - apply (IH (with_jar (Cookies.set n v e) w)). exact Hk.
  - apply (IH (with_jar (Cookies.remove n) w)). exact Hk.
  - apply (IH (log l e w)). exact Hk.
  - destruct Hk as [Hs Hres]. split; [exact Hs|]. split; [reflexivity|].
    right. exists k. split; [reflexivity|]. exact Hres.
  - contradiction.
Qed.

Ltac store_cases :=
  repeat match goal with
         | s : Store |- _ => destruct s
         | d : ResponseData |- _ => destruct d
         | o : option User.t |- _ => destruct o
         | o : option string |- _ => destruct o
         | r : AxiosResult |- _ => destruct r
         end;
  unfold user_backed_by_token in *; simpl in *;
  try solve [intuition congruence].

Lemma keeps_login (email password : string) (s : Store) :
  user_backed_by_token s -> keeps (login email password) s.
Proof.
  intros Hs. simpl. split.
  - store_cases.
  - intros r s' Hs'. destruct r as [[[u|] [t|]]|e]; simpl;
      try destruct (negb (String.eqb t "")); simpl; store_cases.
Qed.

Lemma keeps_signup (email password : string) (s : Store) :
  user_backed_by_token s -> keeps (signup email password) s.
Proof.
  intros Hs. simpl. split.
  - store_cases.
  - intros r s' Hs'. destruct r as [[[u|] [t|]]|e]; simpl;
      try destruct (negb (String.eqb t "")); simpl;
      try (split; [store_cases|]; intros r2 s2 Hs2;
           destruct r2 as [[[u2|] [t2|]]|e2]; simpl;
           try destruct (negb (String.eqb t2 "")); simpl);
      store_cases.
Qed.

Lemma keeps_logout (s : Store) :
  user_backed_by_token s -> keeps logout s.
Proof.
  intros Hs. simpl. split; [exact Hs|].
  intros r s' Hs'. destruct r; simpl; store_cases.
Qed.

Lemma keeps_start (a : Action) (w : World) :
  user_backed_by_token (store w) ->
  exists p o, start a w = exec o p w /\ keeps p (store w).
Proof.
  intros Hs. destruct a as [e p|e p|].
  - exists (login e p), FromLogin. split; [reflexivity | apply keeps_login, Hs].
  - exists (signup e p), FromSignup. split; [reflexivity | apply keeps_signup, Hs].
  - exists logout, FromLogout. split; [reflexivity | apply keeps_logout, Hs].
Qed.

Lemma boot_invariant (env0 : option string) (jar0 : gmap string Cookie) :
  tab_invariant (boot env0 jar0).
Proof.
  split; [intros H; contradiction H; reflexivity|].
  split; [intros _; split; reflexivity|].
  left. constructor.
Qed.

(** The mount effect establishes the invariant. *)
Lemma mount_invariant (w : World) :
  store w = initial_store -> pending w = [] ->
  tab_invariant (fst (exec FromMount initialize (set_mounted w))).
Proof.
  destruct w as [e m s j co se ps]. simpl. intros -> ->.
  unfold initialize. cbn [exec jar set_mounted].
  destruct (Cookies.get "token" j) as [t|]; simpl.
  - destruct (negb (String.eqb t "")); simpl.
    + split; [intros H; contradiction H; reflexivity|].
      split; [discriminate|].
      right. split; [reflexivity|]. split; [discriminate|].
      eexists. split; [reflexivity|].
      intros r s Hu Ht. destruct r as [[[u|] tk]|err]; simpl; store_cases.
    + split; [intros H; contradiction H; reflexivity|].
      split; [discriminate|]. left. constructor.
  - split; [intros H; contradiction H; reflexivity|].
    split; [discriminate|]. left. constructor.
Qed.

(** Every turn of the event loop that respects the guard preserves the
    invariant of the tab. *)
Lemma step_invariant (w w' : World) (ev : Event) (o : Outcome) :
  tab_invariant w ->
  after_validation w ev ->
  step ev w = Some (w', o) ->
  tab_invariant w'.
Proof.
  intros (Hs & Hboot & Hpend) Hguard Hstep.
  destruct ev as [|a|i r]; unfold step in Hstep.
  - (* Mount *)
    destruct (mounted w) eqn:Hm; [discriminate|].
    assert (Hex : exec FromMount initialize (set_mounted w) = (w', o))
      by congruence.
    destruct (Hboot eq_refl) as [Hst Hps].
    pose proof (mount_invariant w Hst Hps) as H.
    rewrite Hex in H. exact H.
  - (* Invoke *)
    destruct (mounted w) eqn:Hm; [|discriminate].
    injection Hstep as Hstart.
    simpl in Hguard.
    destruct Hpend as [Hall | (_ & _ & kv & Hkv & _)].
    + destruct (keeps_start a w Hs) as (p & og & Hst & Hk).
      rewrite Hst in Hstart.
      destruct (exec_keeps p og w Hk) as (Hs' & Hm' & Hp').
      rewrite Hstart in Hs', Hm', Hp'. simpl in *.
      split; [exact Hs'|]. split; [rewrite Hm', Hm; discriminate|].
      left. destruct Hp' as [-> | (k & -> & Hk')]; [exact Hall|].
      apply Forall_app. split; [exact Hall|]. constructor; [exact Hk' | constructor].
    + unfold validation_in_flight in Hguard. rewrite Hkv in Hguard. discriminate.
  - (* Settle *)
    destruct (mounted w) eqn:Hm; [|discriminate].
    unfold settle in Hstep.
    destruct (pending w !! i) as [[og k]|] eqn:Hi; [|discriminate].
    injection Hstep as Hex.
    assert (Hkeeps : keeps (k r) (store (with_pending (delete i) w))
                     /\ Forall resumes_well (pending (with_pending (delete i) w))).
    { destruct Hpend as [Hall | (Hu & Ht & kv & Hkv & Hres)].
      - split.
        + apply (proj1 (Forall_lookup _ _) Hall i (og, k) Hi r (store w) Hs).
        + simpl. apply Forall_delete. exact Hall.
      - rewrite Hkv in Hi. destruct i as [|i]; simpl in Hi; [|discriminate].
        injection Hi as <- <-. split.
        + apply Hres; assumption.
        + simpl. rewrite Hkv. constructor. }
    destruct Hkeeps as [Hk Hall].
    destruct (exec_keeps (k r) og _ Hk) as (Hs' & Hm' & Hp').
    rewrite Hex in Hs', Hm', Hp'. simpl in Hs', Hm', Hp'.
    split; [exact Hs'|]. split; [rewrite Hm', Hm; discriminate|].
    left. destruct Hp' as [-> | (k' & -> & Hk')]; [exact Hall|].
    apply Forall_app. split; [exact Hall|]. constructor; [exact Hk' | constructor].
Qed.

Lemma reachable_invariant (env0 : option string) (jar0 : gmap string Cookie) (w : World) :
  reachable_under after_validation env0 jar0 w -> tab_invariant w.
Proof.
  induction 1 as [|w ev w' o _ IH Hguard Hstep].
  - apply boot_invariant.
  - eapply step_invariant; eassumption.
Qed.

(** The session invariant without the race: were no operation invoked
    while the token validation started by [initialize] is in flight, then in
    every state the tab reaches (the states between synchronous
    continuations, continuations interleaved in any order) [user] would be
    non-null only if [token] is non-null. Every violation of the invariant
    needs an operation that overlaps that validation. *)
Theorem user_backed_by_token_after_validation
    (env0 : option string) (jar0 : gmap string Cookie) (w : World) :
  reachable_under after_validation env0 jar0 w ->
  user_backed_by_token (store w).
Proof. intros Hr. apply (reachable_invariant env0 jar0 w Hr). Qed.

Lemma user_backed_by_token_after_validation_witness :
  let u := User.mk "1" "a@b.com" None None None None in
  let jar0 : gmap string Cookie := {[ "token" := mkCookie "tok" 7 ]} in
  let w :=
    {| env := None; mounted := true;
       store := {| user := Some u; token := Some "tok"; isLoading := false |};
       jar := jar0; console := [];
       sent := [api.request None jar0 authApi.session];
       pending := [] |} in
  reachable_under after_validation None jar0 w
  /\ user_backed_by_token (store w).
Proof.
  intros u jar0 w.
  assert (Hr : reachable_under after_validation None jar0 w).
  { apply (run_after_validation_reachable None jar0
             [Mount;
              Settle 0 (Resolved {| data_user := Some u; data_access_token := None |})]
             (boot None jar0) w).
    - apply reach_boot.
    - reflexivity. }
  split; [exact Hr|].
  apply (user_backed_by_token_after_validation None jar0 w Hr).
Defined.

(* ===================================================================== *)
(** * Properties of the dashboard's filter                                 *)
(* ===================================================================== *)

Lemma toLowerCase_app (a b : string) :
  Js.toLowerCase (a +:+ b) = Js.toLowerCase a +:+ Js.toLowerCase b.
Proof.
  induction a as [|c a IH]; simpl; [reflexivity|]. now rewrite IH.
Qed.

(** A split of the lowered string comes from a split of the string. *)
Lemma toLowerCase_split (s a b : string) :
  Js.toLowerCase s = a +:+ b ->
  exists x y, s = x +:+ y /\ Js.toLowerCase x = a /\ Js.toLowerCase y = b.
Proof.
  revert s. induction a as [|c a IH]; intros s H; simpl in H.
  - exists "", s. auto.
  - destruct s as [|c' s]; simpl in H; [discriminate|].
    injection H as Hc Hs.
    destruct (IH s Hs) as (x & y & -> & Hx & Hy).
    exists (String c' x), y. simpl. rewrite Hc, Hx. auto.
Qed.

Lemma startsWith_spec (s p : string) :
  Js.startsWith s p = true <-> exists post, s = p +:+ post.
Proof.
  revert s. induction p as [|a p IH]; intros s; simpl.
  - split; [intros _; exists s; reflexivity | intros _; destruct s; reflexivity].
  - destruct s as [|b s]; simpl.
    + split; [discriminate | intros [post H]; discriminate].
    + rewrite andb_true_iff, IH. split.
      * intros [Hab [post ->]]. apply Ascii.eqb_eq in Hab as ->.
        exists post. reflexivity.
      * intros [post H]. injection H as -> ->.
        split; [apply Ascii.eqb_refl | exists post; reflexivity].
Qed.

Lemma includes_spec (s sub : string) :
  Js.includes s sub = true <-> exists pre post, s = pre +:+ sub +:+ post.
Proof.
  induction s as [|c s IH]; cbn [Js.includes];
    rewrite orb_true_iff, startsWith_spec.
  - split.
    + intros [[post H] | H]; [|discriminate]. exists "", post. exact H.
    + intros (pre & post & H). left.
      destruct pre as [|c pre]; [|discriminate]. exists post. exact H.
  - rewrite IH. split.
    + intros [[post H] | (pre & post & ->)].
      * exists "", post. exact H.
      * exists (String c pre), post. reflexivity.
    + intros (pre & post & H). destruct pre as [|c' pre]; simpl in H.
      * left. exists post. exact H.
      * right. injection H as -> ->. exists pre, post. reflexivity.
Qed.

(** The search of the code is case-insensitive occurrence. *)
Lemma includes_toLowerCase (s q : string) :
  Js.includes (Js.toLowerCase s) (Js.toLowerCase q) = true
  <-> occurs_ignoring_case q s.
Proof.
  rewrite includes_spec. unfold occurs_ignoring_case, same_ignoring_case. split.
  - intros (pre' & post' & H).
    apply toLowerCase_split in H as (pre & rest & -> & _ & Hrest).
    apply toLowerCase_split in Hrest as (mid & post & -> & Hmid & _).
    exists pre, mid, post. auto.
  - intros (pre & mid & post & -> & Hmid).
    exists (Js.toLowerCase pre), (Js.toLowerCase post).
    now rewrite !toLowerCase_app, Hmid.
Qed.

Lemma toLowerCase_empty (q : string) : Js.toLowerCase q = "" -> q = "".
Proof. destruct q; [reflexivity | discriminate]. Qed.

Lemma occurs_in_empty (q : string) : occurs_ignoring_case q "" -> q = "".
Proof.
  intros (pre & mid & post & H & Hmid).
  destruct pre; [|discriminate]. destruct mid; [|discriminate].
  apply toLowerCase_empty. symmetry. exact Hmid.
Qed.

Lemma matchesSearch_spec (q : string) (t : Task.t) :
  Dashboard.matchesSearch q t = true <-> search_hits q t.
Proof.
  unfold Dashboard.matchesSearch, search_hits.
  rewrite orb_true_iff, includes_toLowerCase.
  destruct (Task.description t) as [d|]; simpl.
  - rewrite andb_true_iff, includes_toLowerCase, negb_true_iff. split.
    + intros [H | [_ H]]; [left; exact H | right; exists d; auto].
    + intros [H | (d' & [= <-] & H)]; [left; exact H|].
      destruct (String.eqb d "") eqn:Hd; [|right; auto].
      apply String.eqb_eq in Hd as ->. apply occurs_in_empty in H as ->.
      left. exists "", "", (Task.title t). split; reflexivity.
  - split.
    + intros [H | H]; [left; exact H | discriminate].
    + intros [H | (d & [=] & _)]. left; exact H.
Qed.

Lemma matchesFilter_spec (f : Dashboard.Filter) (t : Task.t) :
  Dashboard.matchesFilter f t = true <-> has_status f t.
Proof.
  unfold Dashboard.matchesFilter.
  destruct f; simpl; destruct (Task.completed t); simpl; intuition congruence.
Qed.

(** The filtered list, with the search said through the code's own
    folding: under the filter [completed] every task of the list has
    [completed = true]; and a task is in the list exactly when it is
    fetched, matches the status filter, and the folded search string occurs
    in its folded title or description. *)
Theorem filteredTasks_spec (tasks : list Task.t) (searchQuery : string) :
  Forall (fun task => Task.completed task = true)
    (Dashboard.filteredTasks tasks Dashboard.completed searchQuery)
  /\ forall (filter : Dashboard.Filter) (task : Task.t),
       In task (Dashboard.filteredTasks tasks filter searchQuery)
       <-> In task tasks /\ has_status filter task /\ search_hits searchQuery task.
Proof.
  assert (Hiff : forall filter task,
            In task (Dashboard.filteredTasks tasks filter searchQuery)
            <-> In task tasks /\ has_status filter task /\ search_hits searchQuery task).
  { intros filter task. unfold Dashboard.filteredTasks.
    rewrite filter_In, andb_true_iff, matchesFilter_spec, matchesSearch_spec.
    reflexivity. }
  split; [|exact Hiff].
  apply List.Forall_forall. intros task Hin.
  apply Hiff in Hin as (_ & Hst & _). exact Hst.
Qed.

(* ---------------------------------------------------------------- *)
(** ** Case-insensitivity, independently of the code's folding         *)
(* ---------------------------------------------------------------- *)

Lemma nat_of_ascii_inj (a b : ascii) : nat_of_ascii a = nat_of_ascii b -> a = b.
Proof.
  intros H. rewrite <- (ascii_nat_embedding a), <- (ascii_nat_embedding b).
  now rewrite H.
Qed.

Lemma is_upper_spec (c : ascii) :
  is_upper c = true <-> 65 <= nat_of_ascii c <= 90.
Proof.
  unfold is_upper. rewrite andb_true_iff, !Nat.leb_le. tauto.
Qed.

Lemma nat_of_lower_ascii (c : ascii) :
  nat_of_ascii (Js.lower_ascii c)
  = if is_upper c then nat_of_ascii c + 32 else nat_of_ascii c.
Proof.
  unfold Js.lower_ascii. fold (is_upper c).
  destruct (is_upper c) eqn:Hu; [|reflexivity].
  apply is_upper_spec in Hu. apply nat_ascii_embedding. lia.
Qed.

(** The folding of the code identifies exactly the letters that are the
    same up to case. *)
Lemma lower_ascii_same_letter (a b : ascii) :
  Js.lower_ascii a = Js.lower_ascii b <-> same_letter a b.
Proof.
  unfold same_letter. split.
  - intros H. apply (f_equal nat_of_ascii) in H. rewrite !nat_of_lower_ascii in H.
    destruct (is_upper a) eqn:Ha; destruct (is_upper b) eqn:Hb.
    + left. apply nat_of_ascii_inj. lia.
    + right. left. split; [reflexivity | lia].
    + right. right. split; [reflexivity | lia].
    + left. apply nat_of_ascii_inj. exact H.
  - intros [-> | [[Ha Hb] | [Hb Ha]]]; [reflexivity | |];
      apply nat_of_ascii_inj; rewrite !nat_of_lower_ascii.
    + rewrite Ha. destruct (is_upper b) eqn:Hub; [|lia].
      apply is_upper_spec in Ha, Hub. lia.
    + rewrite Hb. destruct (is_upper a) eqn:Hua; [|lia].
      apply is_upper_spec in Hb, Hua. lia.
Qed.

Lemma toLowerCase_same_up_to_case (s t : string) :
  Js.toLowerCase s = Js.toLowerCase t <-> same_up_to_case s t.
Proof.
  split.
  - revert t. induction s as [|a s IH]; intros [|b t] H; simpl in H;
      try discriminate; [constructor|].
    injection H as Hab Hst. constructor; [apply lower_ascii_same_letter, Hab | apply IH, Hst].
  - induction 1 as [|a b s t Hab _ IH]; simpl; [reflexivity|].
    apply lower_ascii_same_letter in Hab. now rewrite Hab, IH.
Qed.

Lemma occurs_case_insensitively_spec (q s : string) :
  occurs_ignoring_case q s <-> occurs_case_insensitively q s.
Proof.
  unfold occurs_ignoring_case, occurs_case_insensitively, same_ignoring_case.
  split; intros (pre & mid & post & Hs & Hm); exists pre, mid, post;
    (split; [exact Hs | apply toLowerCase_same_up_to_case, Hm]).
Qed.

Lemma search_matches_spec (q : string) (t : Task.t) :
  Dashboard.matchesSearch q t = true <-> search_matches q t.
Proof.
  rewrite matchesSearch_spec. unfold search_hits, search_matches.
  rewrite occurs_case_insensitively_spec. split.
  - intros [H | (d & Hd & H)]; [left; exact H|].
    right. exists d. split; [exact Hd | apply occurs_case_insensitively_spec, H].
  - intros [H | (d & Hd & H)]; [left; exact H|].
    right. exists d. split; [exact Hd | apply occurs_case_insensitively_spec, H].
Qed.

Lemma In_firstn {A : Type} (n : nat) (l : list A) (x : A) :
  In x (firstn n l) -> In x l.
Proof.
  revert l. induction n as [|n IH]; intros [|a l] H; simpl in *; try contradiction.
  destruct H as [-> | H]; [left; reflexivity | right; apply IH, H].
Qed.

(** C8, counterexample. Six completed tasks whose titles all contain the
    query: the sixth is fetched, matches the status filter and the search,
    and is not among the rows of the table, which gets the first five. *)
Lemma sixth_matching_task_not_displayed :
  let task i := Task.mk i ("t" +:+ i) None true "d" "d" "u" in
  let tasks := [task "1"; task "2"; task "3"; task "4"; task "5"; task "6"] in
  let u := User.mk "1" "a@b.com" None None None None in
  In (task "6") tasks
  /\ has_status Dashboard.completed (task "6")
  /\ search_matches "t" (task "6")
  /\ DashboardView.tableRows false false (Some u) None tasks Dashboard.completed "t"
     = Some [task "1"; task "2"; task "3"; task "4"; task "5"]
  /\ ~ In (task "6") [task "1"; task "2"; task "3"; task "4"; task "5"].
Proof.
  intros task tasks u.
  split; [simpl; tauto|]. split; [reflexivity|]. split.
  - left. exists "", "t", "6". split; [reflexivity|].
    constructor; [left; reflexivity | constructor].
  - split; [reflexivity|].
    simpl. intros [H | [H | [H | [H | [H | []]]]]]; discriminate.
Qed.

(** C8, as the code has it. When the dashboard renders its table, the rows
    are the first five, in the order of the fetched list, of the filtered
    tasks; every row is a fetched task that matches the status filter, and
    under the filter [completed] every row has [completed = true]. For ASCII
    text the filtered tasks are exactly the fetched tasks that match the
    status filter and in whose title or description the search string occurs
    case-insensitively; so every row matches the search, and when at most
    five tasks match, a task is displayed exactly when it matches. *)
Theorem dashboard_table_rows (authLoading loading : bool) (user0 : option User.t)
    (error0 : option string) (tasks : list Task.t) (filter : Dashboard.Filter)
    (searchQuery : string) (rows : list Task.t) :
  DashboardView.tableRows authLoading loading user0 error0 tasks filter searchQuery
    = Some rows ->
  rows = firstn 5 (Dashboard.filteredTasks tasks filter searchQuery)
  /\ sublist (Dashboard.filteredTasks tasks filter searchQuery) tasks
  /\ Forall (fun task => In task tasks /\ has_status filter task) rows
  /\ (filter = Dashboard.completed ->
      Forall (fun task => Task.completed task = true) rows)
  /\ (is_ascii searchQuery = true ->
      Forall (fun task => task_is_ascii task = true) tasks ->
      (forall task,
         In task (Dashboard.filteredTasks tasks filter searchQuery)
         <-> In task tasks /\ has_status filter task
             /\ search_matches searchQuery task)
      /\ Forall (fun task => search_matches searchQuery task) rows
      /\ (length (Dashboard.filteredTasks tasks filter searchQuery) <= 5 ->
          forall task,
            In task rows
            <-> In task tasks /\ has_status filter task
                /\ search_matches searchQuery task)).
Proof.
  intros Hrows.
  assert (Hrows' : rows = firstn 5 (Dashboard.filteredTasks tasks filter searchQuery)).
  { unfold DashboardView.tableRows, DashboardView.shownTasks in Hrows.
    destruct (authLoading || loading); [discriminate|].
    destruct (negb (Js.truthy_obj user0)); [discriminate|].
    destruct (Js.truthy error0); [discriminate|]. congruence. }
  assert (Hiff : forall task,
            In task (Dashboard.filteredTasks tasks filter searchQuery)
            <-> In task tasks /\ has_status filter task
                /\ search_matches searchQuery task).
  { intros task. unfold Dashboard.filteredTasks.
    rewrite filter_In, andb_true_iff, matchesFilter_spec, search_matches_spec.
    reflexivity. }
  assert (Hall : Forall (fun task =>
                           In task tasks /\ has_status filter task
                           /\ search_matches searchQuery task) rows).
  { apply List.Forall_forall. intros task Hin. apply Hiff.
    rewrite Hrows' in Hin. eapply In_firstn, Hin. }
  split; [exact Hrows'|]. split.
  { clear Hrows Hrows' Hiff Hall. unfold Dashboard.filteredTasks.
    induction tasks as [|t l IH]; simpl; [constructor|].
    destruct (Dashboard.matchesFilter filter t && Dashboard.matchesSearch searchQuery t);
      now constructor. }
  split.
  { eapply List.Forall_impl; [|exact Hall]. intros task (Hin & Hst & _). auto. }
  split.
  { intros ->. eapply List.Forall_impl; [|exact Hall].
    intros task (_ & Hst & _). exact Hst. }
  intros _ _. split; [exact Hiff|]. split.
  - eapply List.Forall_impl; [|exact Hall]. intros task (_ & _ & Hm). exact Hm.
  - intros Hlen task. rewrite Hrows', firstn_all2 by exact Hlen. apply Hiff.
Qed.

Lemma dashboard_table_rows_witness :
  let t1 := Task.mk "1" "Buy MILK" None true "d" "d" "u" in
  let t2 := Task.mk "2" "Call mum" (Some "about the milkman") false "d" "d" "u" in
  let u := User.mk "1" "a@b.com" None None None None in
  DashboardView.tableRows false false (Some u) None [t1; t2] Dashboard.completed "Milk"
    = Some [t1]
  /\ is_ascii "Milk" = true
  /\ Forall (fun task => task_is_ascii task = true) [t1; t2]
  /\ Forall (fun task => Task.completed task = true) [t1]
  /\ Forall (fun task => search_matches "Milk" task) [t1].
Proof.
  intros t1 t2 u.
  assert (Hq : is_ascii "Milk" = true) by reflexivity.
  assert (Ht : Forall (fun task => task_is_ascii task = true) [t1; t2])
    by (repeat constructor).
  assert (Hr : DashboardView.tableRows false false (Some u) None [t1; t2]
                 Dashboard.completed "Milk" = Some [t1]) by reflexivity.
  destruct (dashboard_table_rows false false (Some u) None [t1; t2]
              Dashboard.completed "Milk" [t1] Hr) as (_ & _ & _ & Hc & Hascii).
  destruct (Hascii Hq Ht) as (_ & Hm & _).
  split; [exact Hr|]. split; [exact Hq|]. split; [exact Ht|].
  split; [exact (Hc eq_refl) | exact Hm].
Defined.

(* ===================================================================== *)
(** * Worked scenarios                                                     *)
(* ===================================================================== *)

Example toLowerCase_example : Js.toLowerCase "Buy MILK #2" = "buy milk #2".
Proof. reflexivity. Qed.

Example includes_example :
  Js.includes "buy milk" "y m" = true /\ Js.includes "buy milk" "ym" = false.
Proof. split; reflexivity. Qed.

Example filteredTasks_example :
  let t1 := Task.mk "1" "Buy MILK" None true "d" "d" "u" in
  let t2 := Task.mk "2" "Call mum" (Some "about the milkman") false "d" "d" "u" in
  let t3 := Task.mk "3" "Pay rent" (Some "") true "d" "d" "u" in
  Dashboard.filteredTasks [t1; t2; t3] Dashboard.completed "Milk" = [t1]
  /\ Dashboard.filteredTasks [t1; t2; t3] Dashboard.all "milk" = [t1; t2]
  /\ Dashboard.filteredTasks [t1; t2; t3] Dashboard.pending "" = [t2].
Proof. repeat split. Qed.

(** A stored token that the backend recognises: the session resolves to the
    returned user and the cookie is left alone. *)
Example stored_token_scenario :
  let u := User.mk "1" "a@b.com" None None None None in
  let jar0 : gmap string Cookie := {[ "token" := mkCookie "tok" 7 ]} in
  (fun w => (store w, jar w, length (pending w))) <$>
    run [Mount; Settle 0 (Resolved {| data_user := Some u; data_access_token := None |})]
        (boot None jar0)
  = Some ({| user := Some u; token := Some "tok"; isLoading := false |}, jar0, 0).
Proof. reflexivity. Qed.

(** A stored token that the backend rejects: signed out, cookie removed. *)
Example stale_token_scenario :
  let jar0 : gmap string Cookie := {[ "token" := mkCookie "old" 7 ]} in
  (fun w => (store w, jar w !! "token", console w)) <$>
    run [Mount; Settle 0 (Rejected (BadStatus 401))] (boot None jar0)
  = Some ({| user := None; token := None; isLoading := false |}, None,
          [("Token validation failed:", AxiosFailure (BadStatus 401))]).
Proof. reflexivity. Qed.

(** [signup] accepted without a token falls back to [login]. *)
Example signup_fallback_scenario :
  let u := User.mk "1" "a@b.com" None None None None in
  let wo := perform (Signup "a@b.com" "pw")
              [Resolved {| data_user := Some u; data_access_token := None |};
               Resolved {| data_user := Some u; data_access_token := Some "tok" |}]
              (boot None ∅) in
  snd wo = Fulfilled
  /\ store (fst wo) = {| user := Some u; token := Some "tok"; isLoading := false |}
  /\ (url <$> sent (fst wo)) = ["/api/auth/signup"; "/api/auth/signin"].
Proof. repeat split. Qed.

(** The request of a task operation under a stored token. *)
Example createTask_request :
  let req := api.request None {[ "token" := mkCookie "tok" 7 ]}
               (taskApi.createTask "1" (mkTaskCreateData "Buy milk" None (Some false))) in
  method req = POST
  /\ baseURL req = "http://localhost:8000"
  /\ url req = "/api/1/tasks"
  /\ data req = Some (Js.JObj [("title", Js.JStr "Buy milk"); ("completed", Js.JBool false)])
  /\ headers req !! "Authorization" = Some "Bearer tok"
  /\ headers req !! "Content-Type" = Some "application/json".
Proof. repeat split. Qed.

(* ===================================================================== *)
(** * Further properties of the session store                              *)
(* ===================================================================== *)

#[local] Arguments Cookies.get : simpl never.

Lemma feed_parked (o o' : Origin) (p : Async) (k : AxiosResult -> Async)
    (c : Call) (w w1 : World) (r : AxiosResult) (rs : list AxiosResult) :
  exec o p w = (with_pending (fun ps => ps ++ [(o', k)]) (send c w1), Suspended) ->
  feed (r :: rs) (exec o p w) = feed rs (exec o' (k r) (send c w1)).
Proof.
  intros Hex. rewrite Hex. cbn [feed snd fst]. rewrite settle_parked. reflexivity.
Qed.

Lemma get_set_token (t : string) (e : nat) (j : gmap string Cookie) :
  Cookies.get "token" (Cookies.set "token" t e j) = Some t.
Proof. unfold Cookies.get, Cookies.set. now rewrite lookup_insert_eq. Qed.

Lemma get_remove_token (j : gmap string Cookie) :
  Cookies.get "token" (Cookies.remove "token" j) = None.
Proof. unfold Cookies.get, Cookies.remove. now rewrite lookup_delete_eq. Qed.

(** X1. When the sign-up response carries both a user and a (non-empty)
    access token, [signup] is fulfilled with [user] and [token] set to the
    response's values, [isLoading=false], the token written to the cookie
    ['token'] for 7 days, and the sign-up request the only one sent. *)
Theorem signup_success (w : World) (email password : string) (u : User.t) (t : string) :
  t <> "" ->
  exists w',
    perform (Signup email password)
      [Resolved {| data_user := Some u; data_access_token := Some t |}] w
      = (w', Fulfilled)
    /\ store w' = {| user := Some u; token := Some t; isLoading := false |}
    /\ jar w' = <["token" := mkCookie t 7]> (jar w)
    /\ sent w' = sent w ++
         [api.request (env w) (jar w) (authApi.signup (mkCredentials email password))]
    /\ pending w' = pending w.
Proof.
  intros Hne. apply String.eqb_neq in Hne.
  eexists. erewrite perform_parked by reflexivity.
  simpl. rewrite Hne. simpl. repeat split.
Qed.

Lemma signup_success_witness :
  exists w',
    perform (Signup "a@b.com" "secret")
      [Resolved {| data_user := Some (User.mk "1" "a@b.com" None None None None);
                   data_access_token := Some "tok" |}]
      (boot None ∅)
      = (w', Fulfilled)
    /\ store w' = {| user := Some (User.mk "1" "a@b.com" None None None None);
                     token := Some "tok"; isLoading := false |}
    /\ jar w' = <["token" := mkCookie "tok" 7]> (jar (boot None ∅))
    /\ sent w' = sent (boot None ∅) ++
         [api.request (env (boot None ∅)) (jar (boot None ∅))
            (authApi.signup (mkCredentials "a@b.com" "secret"))]
    /\ pending w' = pending (boot None ∅).
Proof. apply signup_success. discriminate. Defined.

(** The first step of the fallback: an incomplete sign-up payload makes
    [signup] send the sign-in request and wait for it. *)
Lemma signup_falls_back (w : World) (email password : string) (d : ResponseData)
    (r : AxiosResult) (rs : list AxiosResult) :
  payload_incomplete d ->
  exists k,
    perform (Signup email password) (Resolved d :: r :: rs) w
    = feed rs
        (exec FromSignup (k r)
           (send (authApi.signin (mkCredentials email password))
              (with_store (set_isLoading true)
                 (send (authApi.signup (mkCredentials email password))
                    (with_store (set_isLoading true) w)))))
    /\ k = (fun r =>
              try_finally
                (try_catch
                   (try_finally
                      (try_catch
                         match r with
                         | Resolved response =>
                             if Js.truthy_obj (data_user response)
                                && Js.truthy (data_access_token response)
                             then
                               SetUser (data_user response)
                                 (CookiesSet "token"
                                    (default "" (data_access_token response)) 7
                                    (SetToken (data_access_token response) Return))
                             else Throw (JsError "Login failed")
                         | Rejected e => Throw (AxiosFailure e)
                         end
                         (fun error =>
                            ConsoleError "Login error:" error
                              (Throw (JsError "Invalid email or password"))))
                      (SetIsLoading false Return))
                   (fun error =>
                      ConsoleError "Signup error:" error
                        (Throw (JsError "Signup failed"))))
                (SetIsLoading false Return)).
Proof.
  intros Hinc. eexists. split; [|reflexivity].
  erewrite perform_parked by reflexivity.
  destruct d as [du dt]. unfold payload_incomplete in Hinc. simpl in Hinc.
  destruct Hinc as [-> | [-> | ->]].
  - erewrite feed_parked by reflexivity. reflexivity.
  - erewrite feed_parked by (simpl; rewrite andb_false_r; reflexivity). reflexivity.
  - erewrite feed_parked by (simpl; rewrite andb_false_r; reflexivity). reflexivity.
Qed.

(** X2. When the backend accepts the sign-up but the payload lacks the user
    or the token, [signup] falls back to [login] with the same credentials:
    if that sign-in succeeds, [signup] is fulfilled with the sign-in's user
    and token, the cookie written for 7 days, and exactly the sign-up and
    the sign-in requests sent, in this order. *)
Theorem signup_fallback_success (w : World) (email password : string)
    (d : ResponseData) (u : User.t) (t : string) :
  payload_incomplete d ->
  t <> "" ->
  exists w',
    perform (Signup email password)
      [Resolved d; Resolved {| data_user := Some u; data_access_token := Some t |}] w
      = (w', Fulfilled)
    /\ store w' = {| user := Some u; token := Some t; isLoading := false |}
    /\ jar w' = <["token" := mkCookie t 7]> (jar w)
    /\ sent w' = sent w ++
         [api.request (env w) (jar w) (authApi.signup (mkCredentials email password));
          api.request (env w) (jar w) (authApi.signin (mkCredentials email password))]
    /\ pending w' = pending w.
Proof.
  intros Hinc Hne. apply String.eqb_neq in Hne.
  destruct (signup_falls_back w email password d
              (Resolved {| data_user := Some u; data_access_token := Some t |}) [] Hinc)
    as (k & -> & ->).
  eexists. simpl. rewrite Hne. simpl.
  repeat split. simpl. now rewrite <- app_assoc.
Qed.

Lemma signup_fallback_success_witness :
  let u := User.mk "1" "a@b.com" None None None None in
  exists w',
    perform (Signup "a@b.com" "pw")
      [Resolved {| data_user := Some u; data_access_token := None |};
       Resolved {| data_user := Some u; data_access_token := Some "tok" |}]
      (boot None ∅)
      = (w', Fulfilled)
    /\ store w' = {| user := Some u; token := Some "tok"; isLoading := false |}
    /\ jar w' = <["token" := mkCookie "tok" 7]> (jar (boot None ∅))
    /\ sent w' = sent (boot None ∅) ++
         [api.request (env (boot None ∅)) (jar (boot None ∅))
            (authApi.signup (mkCredentials "a@b.com" "pw"));
          api.request (env (boot None ∅)) (jar (boot None ∅))
            (authApi.signin (mkCredentials "a@b.com" "pw"))]
    /\ pending w' = pending (boot None ∅).
Proof.
  intros u. apply signup_fallback_success.
  - right. left. reflexivity.
  - discriminate.
Defined.

(** X3. Whichever way [signup] fails (the sign-up call is rejected, or its
    payload is incomplete and the fallback sign-in fails in any way) it is
    rejected with the one error [Signup failed], leaves [user], [token] and
    the cookie store as they were, returns [isLoading] to false, and has
    sent one request per response it received: nothing is retried. *)
Theorem signup_failure (w : World) (email password : string) (rs : list AxiosResult) :
  signup_failed rs ->
  exists w',
    perform (Signup email password) rs w = (w', Failed (JsError "Signup failed"))
    /\ user (store w') = user (store w)
    /\ token (store w') = token (store w)
    /\ jar w' = jar w
    /\ isLoading (store w') = false
    /\ length (sent w') = length (sent w) + length rs
    /\ pending w' = pending w.
Proof.
  intros Hfail.
  destruct rs as [|[d|e] [|r2 [|r3 rs]]]; simpl in Hfail; try contradiction.
  - (* incomplete payload, then a failing sign-in *)
    destruct Hfail as [Hinc Hfail2].
    destruct (signup_falls_back w email password d r2 [] Hinc) as (k & -> & ->).
    destruct r2 as [[du dt]|e]; simpl in *.
    + destruct Hfail2 as [-> | [-> | ->]]; simpl;
        rewrite ?andb_false_r; simpl; eexists;
        repeat split; simpl; rewrite !length_app; simpl; lia.
    + eexists. repeat split. simpl. rewrite !length_app. simpl. lia.
  - (* the sign-up call is rejected *)
    erewrite perform_parked by reflexivity. simpl.
    eexists. repeat split. simpl. rewrite length_app. simpl. lia.
Qed.

Lemma signup_failure_witness :
  exists w',
    perform (Signup "a@b.com" "pw") [Rejected (BadStatus 409)] (boot None ∅)
      = (w', Failed (JsError "Signup failed"))
    /\ user (store w') = user (store (boot None ∅))
    /\ token (store w') = token (store (boot None ∅))
    /\ jar w' = jar (boot None ∅)
    /\ isLoading (store w') = false
    /\ length (sent w') = length (sent (boot None ∅)) + length [Rejected (BadStatus 409)]
    /\ pending w' = pending (boot None ∅).
Proof. apply signup_failure. exact I. Defined.

(** X4. With a stored token that the backend recognises (the session
    response carries a user), the mount effect followed by that response
    leaves the store signed in as this user with the stored token, with
    [isLoading=false], the cookie store untouched, one request sent
    ([GET /api/auth/session]) and nothing on the console. *)
Theorem initialize_validation_success (env0 : option string)
    (jar0 : gmap string Cookie) (t : string) (u : User.t) (d : ResponseData) :
  Cookies.get "token" jar0 = Some t ->
  t <> "" ->
  data_user d = Some u ->
  exists w,
    run [Mount; Settle 0 (Resolved d)] (boot env0 jar0) = Some w
    /\ store w = {| user := Some u; token := Some t; isLoading := false |}
    /\ jar w = jar0
    /\ sent w = [api.request env0 jar0 authApi.session]
    /\ console w = []
    /\ pending w = [].
Proof.
  intros Hget Hne Hu. apply String.eqb_neq in Hne.
  simpl. rewrite Hget. simpl. rewrite Hne. simpl. rewrite Hu. simpl.
  eexists. repeat split.
Qed.

Lemma initialize_validation_success_witness :
  let u := User.mk "1" "a@b.com" None None None None in
  let jar0 : gmap string Cookie := {[ "token" := mkCookie "tok" 7 ]} in
  exists w,
    run [Mount; Settle 0 (Resolved {| data_user := Some u; data_access_token := None |})]
        (boot None jar0) = Some w
    /\ store w = {| user := Some u; token := Some "tok"; isLoading := false |}
    /\ jar w = jar0
    /\ sent w = [api.request None jar0 authApi.session]
    /\ console w = []
    /\ pending w = [].
Proof.
  intros u jar0.
  apply (initialize_validation_success None jar0 "tok" u); [reflexivity | discriminate | reflexivity].
Defined.



(** A synchronous run of a program with [wp] ends in a state with the
    postcondition, and every continuation it parks resumes well. *)
Lemma exec_wp (I : Store -> gmap string Cookie -> Prop) (p : Async) :
  forall (Q : Store -> gmap string Cookie -> Prop) (o : Origin) (w : World),
    wp I p Q (store w) (jar w) ->
    Forall (resumes I) (pending w) ->
    Q (store (fst (exec o p w))) (jar (fst (exec o p w)))
    /\ Forall (resumes I) (pending (fst (exec o p w)))
    /\ mounted (fst (exec o p w)) = mounted w
    /\ env (fst (exec o p w)) = env w.
Proof.
  induction p as [ | e | u k IH | t k IH | b k IH | n k IH | n v e k IH
                 | n k IH | l e k IH | c k IH | p' IHp' k IH ];
    intros Q o w Hwp Hall; simpl in *.
  - auto.
  - auto.
  - apply (IH Q o (with_store (set_user u) w)); assumption.
  - apply (IH Q o (with_store (set_token t) w)); assumption.
  - apply (IH Q o (with_store (set_isLoading b) w)); assumption.
  - apply (IH _ Q o w); assumption.
  - apply (IH Q o (with_jar (Cookies.set n v e) w)); assumption.
  - apply (IH Q o (with_jar (Cookies.remove n) w)); assumption.
  - apply (IH Q o (log l e w)); assumption.
  - destruct Hwp as [HQ Hres]. split; [exact HQ|]. split; [|split; reflexivity].
    apply Forall_app. split; [exact Hall|].
    constructor; [|constructor]. intros r s j HI. apply Hres, HI.
  - destruct (IHp' _ o w Hwp Hall) as (Hk & Hall1 & Hm1 & He1).
    destruct (IH Q o (fst (exec o p' w)) Hk Hall1) as (HQ & Hall2 & Hm2 & He2).
    split; [exact HQ|]. split; [exact Hall2|]. split; congruence.
Qed.

Section LoopInvariant.

Variable I : Store -> gmap string Cookie -> Prop.
Variable env0 : option string.
Variable jar0 : gmap string Cookie.

Hypothesis I_mount : wp I initialize I initial_store jar0.
Hypothesis I_login : forall e p s j, I s j -> wp I (login e p) I s j.
Hypothesis I_signup : forall e p s j, I s j -> wp I (signup e p) I s j.
Hypothesis I_logout : forall s j, I s j -> wp I logout I s j.

(** What the event loop keeps: before the mount effect the tab is as at the
    first render; after it the state has [I] and every parked continuation
    re-establishes [I]. *)
Lemma loop_invariant (w : World) :
  reachable env0 jar0 w ->
  (mounted w = false -> w = boot env0 jar0)
  /\ (mounted w = true ->
      I (store w) (jar w) /\ Forall (resumes I) (pending w)).
Proof.
  induction 1 as [|w ev w' o _ [IHboot IHrun] _ Hstep].
  - split; [reflexivity | discriminate].
  - destruct ev as [|a|i r]; unfold step in Hstep.
    + destruct (mounted w) eqn:Hm; [discriminate|].
      assert (Hex : exec FromMount initialize (set_mounted w) = (w', o)) by congruence.
      rewrite (IHboot eq_refl) in Hex.
      destruct (exec_wp I initialize I FromMount (set_mounted (boot env0 jar0))
                  I_mount (List.Forall_nil _))
        as (HI & Hall & Hm' & _).
      rewrite Hex in HI, Hall, Hm'. simpl in HI, Hall, Hm'.
      split; [intros Hf; congruence | intros _; split; assumption].
    + destruct (mounted w) eqn:Hm; [|discriminate].
      destruct (IHrun eq_refl) as [HI Hall].
      assert (Hex : start a w = (w', o)) by congruence.
      assert (Hwp : exists og p, start a w = exec og p w /\ wp I p I (store w) (jar w)).
      { destruct a as [e p|e p|].
        - exists FromLogin, (login e p). split; [reflexivity | apply I_login, HI].
        - exists FromSignup, (signup e p). split; [reflexivity | apply I_signup, HI].
        - exists FromLogout, logout. split; [reflexivity | apply I_logout, HI]. }
      destruct Hwp as (og & p & Hst & Hwp). rewrite Hst in Hex.
      destruct (exec_wp I p I og w Hwp Hall) as (HI' & Hall' & Hm' & _).
      rewrite Hex in HI', Hall', Hm'. simpl in HI', Hall', Hm'.
      split; [intros Hf; congruence | intros _; split; assumption].
    + destruct (mounted w) eqn:Hm; [|discriminate].
      destruct (IHrun eq_refl) as [HI Hall].
      unfold settle in Hstep.
      destruct (pending w !! i) as [[og k]|] eqn:Hi; [|discriminate].
      assert (Hex : exec og (k r) (with_pending (delete i) w) = (w', o)) by congruence.
      pose proof (proj1 (Forall_lookup _ _) Hall i (og, k) Hi r _ _ HI) as Hwp.
      assert (Hdel : Forall (resumes I) (pending (with_pending (delete i) w)))
        by (simpl; apply Forall_delete, Hall).
      destruct (exec_wp I (k r) I og (with_pending (delete i) w) Hwp Hdel)
        as (HI' & Hall' & Hm' & _).
      rewrite Hex in HI', Hall', Hm'. simpl in HI', Hall', Hm'.
      split; [intros Hf; congruence | intros _; split; assumption].
Qed.

End LoopInvariant.

Ltac mirror_step :=
  unfold token_mirrors_cookie in *; simpl in *;
  rewrite ?get_set_token, ?get_remove_token; simpl;
  try assumption; try reflexivity.

Lemma mirror_sign_in (I0 := token_mirrors_cookie) (r : AxiosResult)
    (h : Thrown -> Async) (s : Store) (j : gmap string Cookie) (fallback : Async) :
  I0 s j ->
  (forall e s' j', I0 s' j' -> wp I0 (try_finally (h e) (SetIsLoading false Return)) I0 s' j') ->
  wp I0 (try_finally (try_catch fallback h) (SetIsLoading false Return)) I0 s j ->
  wp I0
    (try_finally
       (try_catch
          match r with
          | Resolved response =>
              if Js.truthy_obj (data_user response)
                 && Js.truthy (data_access_token response) then
                SetUser (data_user response)
                  (CookiesSet "token" (default "" (data_access_token response)) 7
                     (SetToken (data_access_token response) Return))
              else fallback
          | Rejected e => Throw (AxiosFailure e)
          end h)
       (SetIsLoading false Return))
    I0 s j.
Proof.
  subst I0. intros Hs Hh Hf. destruct r as [[du dt]|e]; simpl.
  - destruct du as [u|]; simpl; [|exact Hf].
    destruct dt as [t|]; simpl; [|exact Hf].
    destruct (String.eqb t "") eqn:Ht; simpl; [exact Hf|].
    mirror_step. now rewrite Ht.
  - apply Hh, Hs.
Qed.

Lemma mirror_login (e p : string) (s : Store) (j : gmap string Cookie) :
  token_mirrors_cookie s j -> wp token_mirrors_cookie (login e p) token_mirrors_cookie s j.
Proof.
  intros Hs. simpl. split; [exact Hs|].
  intros r s' j' Hs'. apply mirror_sign_in; [exact Hs' | |]; intros; exact Hs' || assumption.
Qed.

Lemma mirror_signup (e p : string) (s : Store) (j : gmap string Cookie) :
  token_mirrors_cookie s j -> wp token_mirrors_cookie (signup e p) token_mirrors_cookie s j.
Proof.
  intros Hs. simpl. split; [exact Hs|].
  intros r s' j' Hs'. apply mirror_sign_in; [exact Hs' | intros; assumption |].
  simpl. split; [exact Hs'|].
  intros r2 s2 j2 Hs2. destruct r2 as [[[u|] [t|]]|err]; simpl; try exact Hs2.
  destruct (String.eqb t "") eqn:Ht; simpl; [exact Hs2|].
  mirror_step. now rewrite Ht.
Qed.

Lemma mirror_logout (s : Store) (j : gmap string Cookie) :
  token_mirrors_cookie s j -> wp token_mirrors_cookie logout token_mirrors_cookie s j.
Proof.
  intros Hs. simpl. split; [exact Hs|].
  intros r s' j' Hs'. destruct r; simpl; mirror_step.
Qed.

Lemma mirror_mount (jar0 : gmap string Cookie) :
  wp token_mirrors_cookie initialize token_mirrors_cookie initial_store jar0.
Proof.
  simpl. destruct (Cookies.get "token" jar0) as [t|] eqn:Hget; simpl.
  - destruct (String.eqb t "") eqn:Ht; simpl.
    + unfold token_mirrors_cookie. simpl. rewrite Hget. simpl. now rewrite Ht.
    + split.
      * unfold token_mirrors_cookie. simpl. rewrite Hget. simpl. now rewrite Ht.
      * intros r s' j' Hs'. destruct r as [[[u|] dt]|err]; simpl; mirror_step.
  - unfold token_mirrors_cookie. simpl. now rewrite Hget.
Qed.

(** X6. Once the mount effect has run, in every state the tab reaches (with
    the continuations of all operations interleaved in any order) the
    in-memory [token] is exactly the token held by the ['token'] cookie:
    non-null with the cookie's value when the cookie holds a non-empty
    value, null otherwise. *)
Theorem token_follows_cookie (env0 : option string) (jar0 : gmap string Cookie)
    (w : World) :
  reachable env0 jar0 w ->
  mounted w = true ->
  token_mirrors_cookie (store w) (jar w).
Proof.
  intros Hr Hm.
  apply (loop_invariant token_mirrors_cookie env0 jar0 (mirror_mount jar0)
           mirror_login mirror_signup mirror_logout w Hr).
  exact Hm.
Qed.

Lemma token_follows_cookie_witness :
  let u := User.mk "1" "a@b.com" None None None None in
  let w :=
    {| env := None; mounted := true;
       store := {| user := Some u; token := Some "tok"; isLoading := false |};
       jar := {[ "token" := mkCookie "tok" 7 ]}; console := [];
       sent := [api.request None ∅ (authApi.signin (mkCredentials "a@b.com" "pw"))];
       pending := [] |} in
  reachable None ∅ w /\ mounted w = true /\ token_mirrors_cookie (store w) (jar w).
Proof.
  intros u w.
  assert (Hr : reachable None ∅ w).
  { apply (run_reachable None ∅
             [Mount; Invoke (Login "a@b.com" "pw");
              Settle 0 (Resolved {| data_user := Some u; data_access_token := Some "tok" |})]
             (boot None ∅) w).
    - apply reach_boot.
    - reflexivity. }
  split; [exact Hr|]. split; [reflexivity|].
  apply (token_follows_cookie None ∅ w Hr). reflexivity.
Defined.

Ltac others_step jar0 :=
  unfold other_cookies_as_in, Cookies.set, Cookies.remove in *; simpl in *;
  try assumption;
  try (intros n Hn; rewrite ?lookup_insert_ne, ?lookup_delete_ne by congruence; auto).

Lemma others_login (jar0 : gmap string Cookie) (e p : string) (s : Store)
    (j : gmap string Cookie) :
  other_cookies_as_in jar0 s j ->
  wp (other_cookies_as_in jar0) (login e p) (other_cookies_as_in jar0) s j.
Proof.
  intros Hs. simpl. split; [exact Hs|].
  intros r s' j' Hs'. destruct r as [[[u|] [t|]]|err]; simpl; try exact Hs'.
  destruct (String.eqb t ""); simpl; [exact Hs'|]. others_step jar0.
Qed.

Lemma others_signup (jar0 : gmap string Cookie) (e p : string) (s : Store)
    (j : gmap string Cookie) :
  other_cookies_as_in jar0 s j ->
  wp (other_cookies_as_in jar0) (signup e p) (other_cookies_as_in jar0) s j.
Proof.
  intros Hs. simpl. split; [exact Hs|].
  assert (Hlogin : forall s' j', other_cookies_as_in jar0 s' j' ->
            other_cookies_as_in jar0 (set_isLoading true s') j'
            /\ forall r2 s2 j2, other_cookies_as_in jar0 s2 j2 ->
                 wp (other_cookies_as_in jar0)
                   (try_finally
                      (try_catch
                         (try_finally
                            (try_catch
                               match r2 with
                               | Resolved response =>
                                   if Js.truthy_obj (data_user response)
                                      && Js.truthy (data_access_token response)
                                   then
                                     SetUser (data_user response)
                                       (CookiesSet "token"
                                          (default "" (data_access_token response)) 7
                                          (SetToken (data_access_token response) Return))
                                   else Throw (JsError "Login failed")
                               | Rejected e0 => Throw (AxiosFailure e0)
                               end
                               (fun error =>
                                  ConsoleError "Login error:" error
                                    (Throw (JsError "Invalid email or password"))))
                            (SetIsLoading false Return))
                         (fun error =>
                            ConsoleError "Signup error:" error
                              (Throw (JsError "Signup failed"))))
                      (SetIsLoading false Return))
                   (other_cookies_as_in jar0) s2 j2).
  { intros s' j' Hs'. split; [exact Hs'|].
    intros r2 s2 j2 Hs2. destruct r2 as [[[u|] [t|]]|err]; simpl; try exact Hs2.
    destruct (String.eqb t ""); simpl; [exact Hs2|]. others_step jar0. }
  intros r s' j' Hs'. destruct r as [[[u|] [t|]]|err]; simpl;
    try exact Hs'; try (apply Hlogin; exact Hs').
  destruct (String.eqb t ""); simpl; [apply Hlogin; exact Hs'|]. others_step jar0.
Qed.

Lemma others_logout (jar0 : gmap string Cookie) (s : Store) (j : gmap string Cookie) :
  other_cookies_as_in jar0 s j ->
  wp (other_cookies_as_in jar0) logout (other_cookies_as_in jar0) s j.
Proof.
  intros Hs. simpl. split; [exact Hs|].
  intros r s' j' Hs'. destruct r; simpl; others_step jar0.
Qed.

Lemma others_mount (jar0 : gmap string Cookie) :
  wp (other_cookies_as_in jar0) initialize (other_cookies_as_in jar0) initial_store jar0.
Proof.
  simpl. destruct (Js.truthy (Cookies.get "token" jar0)); simpl.
  - split; [intros n _; reflexivity|].
    intros r s' j' Hs'. destruct r as [[[u|] dt]|err]; simpl; others_step jar0.
  - intros n _. reflexivity.
Qed.

(** X7. The provider touches no cookie but ['token']: in every state the tab
    reaches, with any interleaving of operations and responses, every other
    cookie is exactly as it was at the first render. *)
Theorem other_cookies_untouched (env0 : option string) (jar0 : gmap string Cookie)
    (w : World) (n : string) :
  reachable env0 jar0 w ->
  n <> "token" ->
  jar w !! n = jar0 !! n.
Proof.
  intros Hr Hn.
  destruct (loop_invariant (other_cookies_as_in jar0) env0 jar0 (others_mount jar0)
              (others_login jar0) (others_signup jar0) (others_logout jar0) w Hr)
    as [Hboot Hrun].
  destruct (mounted w) eqn:Hm.
  - destruct (Hrun eq_refl) as [HI _]. apply HI, Hn.
  - rewrite (Hboot eq_refl). reflexivity.
Qed.

Lemma other_cookies_untouched_witness :
  let jar0 : gmap string Cookie :=
    {[ "token" := mkCookie "tok" 7; "theme" := mkCookie "dark" 30 ]} in
  let w :=
    {| env := None; mounted := true;
       store := {| user := None; token := None; isLoading := false |};
       jar := {[ "theme" := mkCookie "dark" 30 ]};
       console := [("Token validation failed:", AxiosFailure NetworkError)];
       sent := [api.request None jar0 authApi.session];
       pending := [] |} in
  reachable None jar0 w /\ "theme" <> "token" /\ jar w !! "theme" = jar0 !! "theme".
Proof.
  intros jar0 w.
  assert (Hr : reachable None jar0 w).
  { apply (run_reachable None jar0 [Mount; Settle 0 (Rejected NetworkError)]
             (boot None jar0) w).
    - apply reach_boot.
    - vm_compute. reflexivity. }
  split; [exact Hr|]. split; [discriminate|].
  apply (other_cookies_untouched None jar0 w "theme" Hr). discriminate.
Defined.

(** X8. After a successful [login], every operation of the request client
    carries [Authorization: Bearer <access token>] with the token of that
    login, whatever token cookie was stored before. *)
Theorem requests_after_login_carry_its_token (w : World) (email password : string)
    (u : User.t) (t : string) (op : Operation) :
  t <> "" ->
  headers
    (api.request (env w)
       (jar (fst (perform (Login email password)
                    [Resolved {| data_user := Some u; data_access_token := Some t |}] w)))
       (call_of op))
    !! "Authorization"
  = Some ("Bearer " +:+ t).
Proof.
  intros Hne. apply String.eqb_neq in Hne.
  erewrite perform_parked by reflexivity.
  simpl. rewrite Hne. simpl.
  unfold api.request.
  rewrite interceptor_authorization by apply create_no_authorization.
  rewrite get_set_token. now rewrite Hne.
Qed.

Lemma requests_after_login_carry_its_token_witness :
  headers
    (api.request None
       (jar (fst (perform (Login "a@b.com" "pw")
                    [Resolved {| data_user := Some (User.mk "1" "a@b.com" None None None None);
                                 data_access_token := Some "new" |}]
                    (boot None {[ "token" := mkCookie "old" 7 ]}))))
       (call_of (OpGetTasks "1" None)))
    !! "Authorization"
  = Some ("Bearer " +:+ "new").
Proof.
  apply (requests_after_login_carry_its_token
           (boot None {[ "token" := mkCookie "old" 7 ]}) "a@b.com" "pw"
           (User.mk "1" "a@b.com" None None None None) "new" (OpGetTasks "1" None)).
  discriminate.
Defined.

(** X9. After [logout], however the sign-out call settled, no operation of
    the request client carries an [Authorization] header. *)
Theorem requests_after_logout_carry_no_token (w : World) (r : AxiosResult)
    (op : Operation) :
  headers
    (api.request (env w) (jar (fst (perform Logout [r] w))) (call_of op))
    !! "Authorization"
  = None.
Proof.
  erewrite perform_parked by reflexivity.
  unfold api.request.
  rewrite interceptor_authorization by apply create_no_authorization.
  destruct r; simpl; now rewrite get_remove_token.
Qed.

(* ---------------------------------------------------------------- *)
(** ** The loading flag                                                *)
(* ---------------------------------------------------------------- *)

Lemma exec_quiet (p : Async) :
  forall (o : Origin) (w : World),
    quiet p ->
    isLoading (store (fst (exec o p w))) = isLoading (store w)
    /\ mounted (fst (exec o p w)) = mounted w
    /\ (pending (fst (exec o p w)) = pending w
        \/ exists k, pending (fst (exec o p w)) = pending w ++ [(o, k)]
                     /\ forall r, quiet (k r)).
Proof.
  induction p as [ | e | u k IH | t k IH | b k IH | n k IH | n v e k IH
                 | n k IH | l e k IH | c k IH | p' IHp' k IH ];
    intros o w Hq; simpl in *; try contradiction.
  - auto.
  - auto.
  - apply (IH o (with_store (set_user u) w) Hq).
  - apply (IH o (with_store (set_token t) w) Hq).
  - apply (IH _ o w (Hq _)).
  - apply (IH o (with_jar (Cookies.set n v e) w) Hq).
  - apply (IH o (with_jar (Cookies.remove n) w) Hq).
  - apply (IH o (log l e w) Hq).
  - split; [reflexivity|]. split; [reflexivity|]. right. eauto.
Qed.

Lemma exec_idles (p : Async) :
  forall (o : Origin) (w : World),
    idles p (isLoading (store w)) ->
    mounted (fst (exec o p w)) = mounted w
    /\ ((isLoading (store (fst (exec o p w))) = false
         /\ pending (fst (exec o p w)) = pending w)
        \/ exists k, pending (fst (exec o p w)) = pending w ++ [(o, k)]
                     /\ forall r l, idles (k r) l).
Proof.
  induction p as [ | e | u k IH | t k IH | b k IH | n k IH | n v e k IH
                 | n k IH | l e k IH | c k IH | p' IHp' k IH ];
    intros o w Hi; simpl in *; try contradiction.
  - auto.
  - auto.
  - apply (IH o (with_store (set_user u) w) Hi).
  - apply (IH o (with_store (set_token t) w) Hi).
  - apply (IH o (with_store (set_isLoading b) w) Hi).
  - apply (IH _ o w (Hi _)).
  - apply (IH o (with_jar (Cookies.set n v e) w) Hi).
  - apply (IH o (with_jar (Cookies.remove n) w) Hi).
  - apply (IH o (log l e w) Hi).
  - split; [reflexivity|]. right. eauto.
Qed.

Lemma idles_sign_in (r : AxiosResult) (h : Thrown -> Async) (fallback : Async) (l : bool) :
  (forall e l', idles (try_finally (h e) (SetIsLoading false Return)) l') ->
  (forall l', idles (try_finally (try_catch fallback h) (SetIsLoading false Return)) l') ->
  idles
    (try_finally
       (try_catch
          match r with
          | Resolved response =>
              if Js.truthy_obj (data_user response)
                 && Js.truthy (data_access_token response) then
                SetUser (data_user response)
                  (CookiesSet "token" (default "" (data_access_token response)) 7
                     (SetToken (data_access_token response) Return))
              else fallback
          | Rejected e => Throw (AxiosFailure e)
          end h)
       (SetIsLoading false Return))
    l.
Proof.
  intros Hh Hf. destruct r as [d|e]; simpl; [|apply Hh].
  destruct (Js.truthy_obj (data_user d) && Js.truthy (data_access_token d));
    simpl; [reflexivity | apply Hf].
Qed.

Lemma idles_login (e p : string) (l : bool) : idles (login e p) l.
Proof.
  simpl. intros r l'. apply idles_sign_in; intros; reflexivity.
Qed.

Lemma idles_signup (e p : string) (l : bool) : idles (signup e p) l.
Proof.
  simpl. intros r l'. apply idles_sign_in; [intros; reflexivity|].
  intros l2. simpl. intros r2 l3. destruct r2 as [d|err]; simpl; [|reflexivity].
  destruct (Js.truthy_obj (data_user d) && Js.truthy (data_access_token d));
    simpl; reflexivity.
Qed.

Lemma quiet_logout : quiet logout.
Proof. simpl. intros r. destruct r; simpl; exact I. Qed.

Lemma Exists_delete_other {A : Type} (P : A -> Prop) (l : list A) (i : nat) (x : A) :
  Exists P l -> l !! i = Some x -> ~ P x -> Exists P (delete i l).
Proof.
  revert i. induction l as [|a l IH]; intros i Hex Hi Hx.
  - inversion Hex.
  - destruct i as [|i]; simpl in *.
    + injection Hi as ->. inversion Hex; subst; [contradiction | assumption].
    + inversion Hex; subst.
      * apply Exists_cons_hd. assumption.
      * apply Exists_cons_tl. eapply IH; eassumption.
Qed.

(** What the event loop keeps about the loading flag. *)
Lemma flag_invariant (env0 : option string) (jar0 : gmap string Cookie) (w : World) :
  reachable env0 jar0 w ->
  (mounted w = false -> w = boot env0 jar0)
  /\ (mounted w = true ->
      (isLoading (store w) = true -> Exists (fun p => is_sign_call p = true) (pending w))
      /\ Forall flag_ok (pending w)).
Proof.
  induction 1 as [|w ev w' o _ [IHboot IHrun] _ Hstep].
  - split; [reflexivity | discriminate].
  - destruct ev as [|a|i r]; unfold step in Hstep.
    + (* Mount *)
      destruct (mounted w) eqn:Hm; [discriminate|].
      assert (Hex : exec FromMount initialize (set_mounted w) = (w', o)) by congruence.
      rewrite (IHboot eq_refl) in Hex. simpl in Hex.
      split.
      * intros Hf. exfalso. revert Hex Hf.
        destruct (Js.truthy (Cookies.get "token" jar0)); simpl;
          intros [= <- _]; discriminate.
      * intros _. revert Hex.
        destruct (Js.truthy (Cookies.get "token" jar0)); simpl; intros [= <- _]; simpl.
        -- split; [discriminate|].
           constructor; [|constructor].
           unfold flag_ok. simpl. intros r.
           destruct r as [[[u|] dt]|err]; simpl; exact I.
        -- split; [discriminate | constructor].
    + (* Invoke *)
      destruct (mounted w) eqn:Hm; [|discriminate].
      destruct (IHrun eq_refl) as [Hflag Hall].
      assert (Hex : start a w = (w', o)) by congruence.
      destruct a as [e p|e p|]; unfold start in Hex.
      * destruct (exec_idles (login e p) FromLogin w (idles_login e p _))
          as (Hm' & Hcase).
        rewrite Hex in Hm', Hcase. simpl in Hm', Hcase.
        split; [intros Hf; congruence|]. intros _.
        destruct Hcase as [[Hl Hp] | (k & Hp & Hk)]; rewrite Hp.
        -- split; [intros Ht; congruence | exact Hall].
        -- split.
           ++ intros _. apply Exists_app. right. apply Exists_cons_hd. reflexivity.
           ++ apply Forall_app. split; [exact Hall|].
              constructor; [exact Hk | constructor].
      * destruct (exec_idles (signup e p) FromSignup w (idles_signup e p _))
          as (Hm' & Hcase).
        rewrite Hex in Hm', Hcase. simpl in Hm', Hcase.
        split; [intros Hf; congruence|]. intros _.
        destruct Hcase as [[Hl Hp] | (k & Hp & Hk)]; rewrite Hp.
        -- split; [intros Ht; congruence | exact Hall].
        -- split.
           ++ intros _. apply Exists_app. right. apply Exists_cons_hd. reflexivity.
           ++ apply Forall_app. split; [exact Hall|].
              constructor; [exact Hk | constructor].
      * destruct (exec_quiet logout FromLogout w quiet_logout) as (Hl & Hm' & Hcase).
        rewrite Hex in Hl, Hm', Hcase. simpl in Hl, Hm', Hcase.
        split; [intros Hf; congruence|]. intros _.
        destruct Hcase as [Hp | (k & Hp & Hk)]; rewrite Hp, Hl.
        -- split; assumption.
        -- split.
           ++ intros Ht. apply Exists_app. left. apply Hflag, Ht.
           ++ apply Forall_app. split; [exact Hall|].
              constructor; [exact Hk | constructor].
    + (* Settle *)
      destruct (mounted w) eqn:Hm; [|discriminate].
      destruct (IHrun eq_refl) as [Hflag Hall].
      unfold settle in Hstep.
      destruct (pending w !! i) as [[og k]|] eqn:Hi; [|discriminate].
      assert (Hex : exec og (k r) (with_pending (delete i) w) = (w', o)) by congruence.
      pose proof (proj1 (Forall_lookup _ _) Hall i (og, k) Hi) as Hok.
      assert (Hdel : Forall flag_ok (delete i (pending w))) by apply Forall_delete, Hall.
      unfold flag_ok in Hok.
      destruct (is_sign_call (og, k)) eqn:Hsign; simpl in Hok.
      * destruct (exec_idles (k r) og (with_pending (delete i) w) (Hok r _))
          as (Hm' & Hcase).
        rewrite Hex in Hm', Hcase. simpl in Hm', Hcase.
        split; [intros Hf; congruence|]. intros _.
        destruct Hcase as [[Hl Hp] | (k' & Hp & Hk')]; rewrite Hp.
        -- split; [intros Ht; congruence | exact Hdel].
        -- split.
           ++ intros _. apply Exists_app. right. apply Exists_cons_hd. exact Hsign.
           ++ apply Forall_app. split; [exact Hdel|].
              constructor; [|constructor].
              unfold flag_ok.
              replace (is_sign_call (og, k')) with true by exact (eq_sym Hsign).
              exact Hk'.
      * destruct (exec_quiet (k r) og (with_pending (delete i) w) (Hok r))
          as (Hl & Hm' & Hcase).
        rewrite Hex in Hl, Hm', Hcase. simpl in Hl, Hm', Hcase.
        split; [intros Hf; congruence|]. intros _.
        assert (Hkeep : isLoading (store w') = true ->
                        Exists (fun p => is_sign_call p = true) (delete i (pending w))).
        { intros Ht. rewrite Hl in Ht.
          apply (Exists_delete_other _ _ i (og, k) (Hflag Ht) Hi). congruence. }
        destruct Hcase as [Hp | (k' & Hp & Hk')]; rewrite Hp.
        -- split; assumption.
        -- split.
           ++ intros Ht. apply Exists_app. left. apply Hkeep, Ht.
           ++ apply Forall_app. split; [exact Hdel|].
              constructor; [|constructor].
              unfold flag_ok.
              replace (is_sign_call (og, k')) with false by exact (eq_sym Hsign).
              exact Hk'.
Qed.

(** X10. Once the mount effect has run, [isLoading] is true only while a
    [login] or [signup] call is waiting for its response: in every state the
    tab reaches, under any interleaving, if no such call is in flight then
    [isLoading] is false. *)
Theorem isLoading_only_during_sign_call (env0 : option string)
    (jar0 : gmap string Cookie) (w : World) :
  reachable env0 jar0 w ->
  mounted w = true ->
  existsb is_sign_call (pending w) = false ->
  isLoading (store w) = false.
Proof.
  intros Hr Hm Hnone.
  destruct (flag_invariant env0 jar0 w Hr) as [_ Hrun].
  destruct (Hrun Hm) as [Hflag _].
  destruct (isLoading (store w)) eqn:Hl; [|reflexivity].
  exfalso. specialize (Hflag eq_refl).
  apply List.Exists_exists in Hflag as (p & Hin & Hp).
  assert (existsb is_sign_call (pending w) = true)
    by (apply existsb_exists; eauto).
  congruence.
Qed.

Lemma isLoading_only_during_sign_call_witness :
  let jar0 : gmap string Cookie := {[ "token" := mkCookie "tok" 7 ]} in
  exists w,
    run [Mount; Invoke Logout] (boot None jar0) = Some w
    /\ reachable None jar0 w
    /\ mounted w = true
    /\ existsb is_sign_call (pending w) = false
    /\ isLoading (store w) = false.
Proof.
  intros jar0.
  destruct (run [Mount; Invoke Logout] (boot None jar0)) as [w|] eqn:Hrun;
    [|vm_compute in Hrun; discriminate].
  assert (Hr : reachable None jar0 w)
    by (eapply run_reachable; [apply reach_boot | exact Hrun]).
  assert (Hm : mounted w = true)
    by (vm_compute in Hrun; injection Hrun as <-; reflexivity).
  assert (Hn : existsb is_sign_call (pending w) = false)
    by (vm_compute in Hrun; injection Hrun as <-; reflexivity).
  exists w. split; [reflexivity|]. split; [exact Hr|].
  split; [exact Hm|]. split; [exact Hn|].
  apply (isLoading_only_during_sign_call None jar0 w Hr Hm Hn).
Defined.

(* ===================================================================== *)
(** * Further properties of the dashboard                                  *)
(* ===================================================================== *)

Lemma string_app_assoc (a b c : string) : (a +:+ b) +:+ c = a +:+ b +:+ c.
Proof.
  induction a as [|x a IH]; [reflexivity|].
  change (String x ((a +:+ b) +:+ c) = String x (a +:+ b +:+ c)).
  f_equal. exact IH.
Qed.

Lemma filter_length_split {A : Type} (f : A -> bool) (l : list A) :
  length (List.filter f l) + length (List.filter (fun x => negb (f x)) l) = length l.
Proof.
  induction l as [|x l IH]; simpl; [reflexivity|].
  destruct (f x); simpl; lia.
Qed.

Lemma filter_length_partition {A : Type} (f g h : A -> bool) (l : list A) :
  (forall x, f x = g x || h x /\ g x && h x = false) ->
  length (List.filter f l) = length (List.filter g l) + length (List.filter h l).
Proof.
  intros H. induction l as [|x l IH]; simpl; [reflexivity|].
  destruct (H x) as [Hf Hd]. rewrite Hf.
  destruct (g x); destruct (h x); simpl in *; try discriminate; lia.
Qed.

Lemma filter_sublist_impl {A : Type} (f g : A -> bool) (l : list A) :
  (forall x, g x = true -> f x = true) ->
  sublist (List.filter g l) (List.filter f l).
Proof.
  intros Himp. induction l as [|x l IH]; simpl; [constructor|].
  destruct (g x) eqn:Hg.
  - rewrite (Himp x Hg). now constructor.
  - destruct (f x); [now constructor | exact IH].
Qed.

Lemma filter_sublist_self {A : Type} (f : A -> bool) (l : list A) :
  sublist (List.filter f l) l.
Proof.
  induction l as [|x l IH]; simpl; [constructor|].
  destruct (f x); now constructor.
Qed.

Lemma matchesSearch_empty (t : Task.t) : Dashboard.matchesSearch "" t = true.
Proof.
  unfold Dashboard.matchesSearch. simpl.
  destruct (Js.toLowerCase (Task.title t)); reflexivity.
Qed.

Lemma occurs_ignoring_case_trans (q q' s : string) :
  occurs_ignoring_case q q' -> occurs_ignoring_case q' s -> occurs_ignoring_case q s.
Proof.
  intros (a & m & b & -> & Hm) (pre & mid & post & -> & Hmid).
  unfold same_ignoring_case in *.
  rewrite !toLowerCase_app in Hmid.
  apply toLowerCase_split in Hmid as (x & rest & -> & _ & Hrest).
  apply toLowerCase_split in Hrest as (y & z & -> & Hy & _).
  exists (pre +:+ x), y, (z +:+ post). split.
  - now rewrite !string_app_assoc.
  - congruence.
Qed.

(** X11. The three counters of the dashboard are consistent: [pendingTasks]
    is exactly the number of tasks that are not completed (never negative),
    and completed and pending add up to the total. *)
Theorem stats_counters_consistent (tasks : list Task.t) :
  Stats.pendingTasks tasks
    = Z.of_nat (length (List.filter (fun task => negb (Task.completed task)) tasks))
  /\ (0 <= Stats.pendingTasks tasks)%Z
  /\ (0 <= Stats.completedTasks tasks <= Stats.totalTasks tasks)%Z
  /\ (Stats.completedTasks tasks + Stats.pendingTasks tasks = Stats.totalTasks tasks)%Z.
Proof.
  unfold Stats.pendingTasks, Stats.completedTasks, Stats.totalTasks.
  pose proof (filter_length_split (fun task => Task.completed task) tasks) as H.
  cbv beta in H. repeat split; lia.
Qed.

Lemma firstn_length_min {A : Type} (n : nat) (l : list A) :
  Z.of_nat (length (firstn n l)) = Z.min (Z.of_nat n) (Z.of_nat (length l)).
Proof. rewrite length_firstn. lia. Qed.

(** X12. With an empty search box the table of the dashboard shows the
    first five tasks of the chosen status: under [all] the first five
    fetched tasks, and under [completed] and [pending] as many rows as the
    Completed and the Pending card count, but never more than five. *)
Theorem cards_count_the_rows (tasks : list Task.t) :
  DashboardView.shownTasks tasks Dashboard.all "" = firstn 5 tasks
  /\ Z.of_nat (length (DashboardView.shownTasks tasks Dashboard.completed ""))
     = Z.min 5 (Stats.completedTasks tasks)
  /\ Z.of_nat (length (DashboardView.shownTasks tasks Dashboard.pending ""))
     = Z.min 5 (Stats.pendingTasks tasks).
Proof.
  assert (Hext : forall f,
            Dashboard.filteredTasks tasks f ""
            = List.filter (fun task => Dashboard.matchesFilter f task) tasks).
  { intros f. unfold Dashboard.filteredTasks. apply List.filter_ext.
    intros t. rewrite matchesSearch_empty. apply andb_true_r. }
  unfold DashboardView.shownTasks. rewrite !Hext. clear Hext. split; [|split].
  - f_equal. induction tasks as [|t l IH]; [reflexivity|].
    change (t :: List.filter (fun task => Dashboard.matchesFilter Dashboard.all task) l
            = t :: l).
    now rewrite IH.
  - rewrite firstn_length_min. unfold Stats.completedTasks. do 3 f_equal.
    apply List.filter_ext. intros t. unfold Dashboard.matchesFilter. simpl.
    apply orb_false_r.
  - rewrite firstn_length_min.
    unfold Stats.pendingTasks, Stats.completedTasks, Stats.totalTasks.
    pose proof (filter_length_split (fun task => Task.completed task) tasks) as H.
    cbv beta in H.
    replace (List.filter (fun task => Dashboard.matchesFilter Dashboard.pending task) tasks)
      with (List.filter (fun task => negb (Task.completed task)) tasks)
      by (apply List.filter_ext; intros t; reflexivity).
    lia.
Qed.

Lemma matchesSearch_narrows (q q' : string) (t : Task.t) :
  occurs_case_insensitively q q' ->
  Dashboard.matchesSearch q' t = true -> Dashboard.matchesSearch q t = true.
Proof.
  intros Hocc. apply occurs_case_insensitively_spec in Hocc.
  rewrite !matchesSearch_spec. intros [Ht | (d & Hd & Ho)].
  - left. eapply occurs_ignoring_case_trans; eassumption.
  - right. exists d. split; [exact Hd|].
    eapply occurs_ignoring_case_trans; eassumption.
Qed.

(** X13. On the completed-tasks page, whose table gets the whole filtered
    list, typing more into the search box never adds rows (ASCII text): if
    the query [q] occurs case-insensitively in the query [q'], the rows for
    [q'] are a sub-list, in the same order, of the rows for [q], which are a
    sub-list of the fetched tasks. *)
Theorem longer_query_shows_fewer_rows (authLoading loading : bool)
    (user0 : option User.t) (error0 : option string)
    (tasks : list Task.t) (q q' : string) (rows' : list Task.t) :
  is_ascii q = true ->
  is_ascii q' = true ->
  Forall (fun task => task_is_ascii task = true) tasks ->
  occurs_case_insensitively q q' ->
  CompletedTasks.tableRows authLoading loading user0 error0 tasks q' = Some rows' ->
  exists rows,
    CompletedTasks.tableRows authLoading loading user0 error0 tasks q = Some rows
    /\ sublist rows' rows
    /\ sublist rows tasks.
Proof.
  intros _ _ _ Hocc. unfold CompletedTasks.tableRows.
  destruct (authLoading || loading); [discriminate|].
  destruct (negb (Js.truthy_obj user0)); [discriminate|].
  destruct (Js.truthy error0); [discriminate|].
  assert (Hsub : sublist (CompletedTasks.filteredTasks tasks q')
                   (CompletedTasks.filteredTasks tasks q)).
  { apply filter_sublist_impl. intros t. apply (matchesSearch_narrows q q' t Hocc). }
  destruct (0 <? length (CompletedTasks.filteredTasks tasks q'))%nat eqn:Hlen';
    [|discriminate].
  intros [= <-].
  apply Nat.ltb_lt in Hlen'. pose proof (sublist_length _ _ Hsub) as Hle.
  assert (Hlen : (0 <? length (CompletedTasks.filteredTasks tasks q))%nat = true)
    by (apply Nat.ltb_lt; lia).
  rewrite Hlen. eexists. split; [reflexivity|]. split; [exact Hsub|].
  apply filter_sublist_self.
Qed.

Lemma longer_query_shows_fewer_rows_witness :
  let t1 := Task.mk "1" "Buy MILK" None true "d" "d" "u" in
  let t2 := Task.mk "2" "Call the milkman" None true "d" "d" "u" in
  let u := User.mk "1" "a@b.com" None None None None in
  is_ascii "Milk" = true
  /\ is_ascii "milkm" = true
  /\ Forall (fun task => task_is_ascii task = true) [t1; t2]
  /\ occurs_case_insensitively "Milk" "milkm"
  /\ CompletedTasks.tableRows false false (Some u) None [t1; t2] "milkm" = Some [t2]
  /\ exists rows,
       CompletedTasks.tableRows false false (Some u) None [t1; t2] "Milk" = Some rows
       /\ sublist [t2] rows
       /\ sublist rows [t1; t2].
Proof.
  intros t1 t2 u.
  assert (Hq : is_ascii "Milk" = true) by reflexivity.
  assert (Hq' : is_ascii "milkm" = true) by reflexivity.
  assert (Ht : Forall (fun task => task_is_ascii task = true) [t1; t2])
    by (repeat constructor).
  assert (Hocc : occurs_case_insensitively "Milk" "milkm").
  { exists "", "milk", "m". split; [reflexivity|].
    constructor; [right; right; split; reflexivity|].
    repeat (constructor; [left; reflexivity|]). constructor. }
  assert (Hr : CompletedTasks.tableRows false false (Some u) None [t1; t2] "milkm"
               = Some [t2]) by reflexivity.
  split; [exact Hq|]. split; [exact Hq'|]. split; [exact Ht|].
  split; [exact Hocc|]. split; [exact Hr|].
  apply (longer_query_shows_fewer_rows false false (Some u) None [t1; t2]
           "Milk" "milkm" [t2] Hq Hq' Ht Hocc Hr).
Defined.

(** X14. When at most five tasks match the search box, so that the table of
    the dashboard cuts nothing off, the rows under [all] split into the rows
    under [completed] and the rows under [pending]: each row is in exactly
    one of the two, and the two counts add up. *)
Theorem status_filters_partition (tasks : list Task.t) (q : string) :
  length (Dashboard.filteredTasks tasks Dashboard.all q) <= 5 ->
  length (DashboardView.shownTasks tasks Dashboard.all q)
    = length (DashboardView.shownTasks tasks Dashboard.completed q)
      + length (DashboardView.shownTasks tasks Dashboard.pending q)
  /\ forall t,
       (In t (DashboardView.shownTasks tasks Dashboard.all q)
        <-> In t (DashboardView.shownTasks tasks Dashboard.completed q)
            \/ In t (DashboardView.shownTasks tasks Dashboard.pending q))
       /\ ~ (In t (DashboardView.shownTasks tasks Dashboard.completed q)
             /\ In t (DashboardView.shownTasks tasks Dashboard.pending q)).
Proof.
  intros Hlen.
  assert (Hsum : length (Dashboard.filteredTasks tasks Dashboard.all q)
                 = length (Dashboard.filteredTasks tasks Dashboard.completed q)
                   + length (Dashboard.filteredTasks tasks Dashboard.pending q)).
  { unfold Dashboard.filteredTasks.
    apply filter_length_partition. intros t. unfold Dashboard.matchesFilter. simpl.
    destruct (Task.completed t); destruct (Dashboard.matchesSearch q t); split; reflexivity. }
  unfold DashboardView.shownTasks. rewrite !firstn_all2 by lia.
  split; [exact Hsum|].
  unfold Dashboard.filteredTasks.
  intros t. rewrite !filter_In, !andb_true_iff. unfold Dashboard.matchesFilter. simpl.
  rewrite !orb_false_r. destruct (Task.completed t); simpl; intuition congruence.
Qed.

Lemma status_filters_partition_witness :
  let t1 := Task.mk "1" "Buy milk" None true "d" "d" "u" in
  let t2 := Task.mk "2" "Call mum" None false "d" "d" "u" in
  length (Dashboard.filteredTasks [t1; t2] Dashboard.all "") <= 5
  /\ length (DashboardView.shownTasks [t1; t2] Dashboard.all "")
     = length (DashboardView.shownTasks [t1; t2] Dashboard.completed "")
       + length (DashboardView.shownTasks [t1; t2] Dashboard.pending "").
Proof.
  intros t1 t2.
  assert (Hlen : length (Dashboard.filteredTasks [t1; t2] Dashboard.all "") <= 5)
    by (simpl; lia).
  split; [exact Hlen|].
  apply (status_filters_partition [t1; t2] "" Hlen).
Defined.

(** X15. For a fetched list of completed tasks and the same search box, the
    table of the dashboard under its [completed] filter shows the first five
    of the rows that the completed-tasks page shows. *)
Theorem completed_page_agrees_with_dashboard (tasks : list Task.t) (q : string) :
  Forall (fun task => Task.completed task = true) tasks ->
  DashboardView.shownTasks tasks Dashboard.completed q
  = firstn 5 (CompletedTasks.filteredTasks tasks q).
Proof.
  intros Hall. unfold DashboardView.shownTasks. f_equal. symmetry.
  unfold CompletedTasks.filteredTasks, Dashboard.filteredTasks.
  apply List.filter_ext_in. intros t Hin.
  rewrite List.Forall_forall in Hall. specialize (Hall t Hin).
  unfold Dashboard.matchesFilter, Dashboard.matchesSearch. rewrite Hall. reflexivity.
Qed.

Lemma completed_page_agrees_with_dashboard_witness :
  let t1 := Task.mk "1" "Buy MILK" None true "d" "d" "u" in
  let t2 := Task.mk "2" "Pay rent" (Some "by Friday") true "d" "d" "u" in
  Forall (fun task => Task.completed task = true) [t1; t2]
  /\ DashboardView.shownTasks [t1; t2] Dashboard.completed "fri"
     = firstn 5 (CompletedTasks.filteredTasks [t1; t2] "fri").
Proof.
  intros t1 t2.
  assert (Hall : Forall (fun task => Task.completed task = true) [t1; t2])
    by (repeat constructor).
  split; [exact Hall|].
  apply (completed_page_agrees_with_dashboard [t1; t2] "fri" Hall).
Defined.

(* ===================================================================== *)
(** * Properties of the auth shim's sign-in, sign-up and sign-out          *)
(* ===================================================================== *)

Lemma payload_complete_spec (d : ResponseData) :
  Js.truthy_obj (data_user d) && Js.truthy (data_access_token d) = true
  <-> exists u t, data_user d = Some u /\ data_access_token d = Some t /\ t <> "".
Proof.
  rewrite andb_true_iff, truthy_spec. destruct (data_user d) as [u|]; simpl.
  - split.
    + intros [_ (t & Ht & Hne)]. eauto.
    + intros (u' & t & _ & Ht & Hne). eauto.
  - split; [intros [[=] _] | intros (u & t & [=] & _)].
Qed.

Lemma shim_sign_generic (r : AxiosResult) (jar0 : gmap string Cookie)
    (sign : AxiosResult -> gmap string Cookie -> AuthClient.Result * gmap string Cookie)
    (rejected : string) :
  (forall r jar0,
     sign r jar0 =
     match r with
     | Resolved response =>
         if Js.truthy_obj (data_user response) && Js.truthy (data_access_token response)
         then ({| AuthClient.data := Some response; AuthClient.error := None |},
               Cookies.set "token" (default "" (data_access_token response)) 7 jar0)
         else ({| AuthClient.data := None;
                  AuthClient.error := Some "No user data received" |}, jar0)
     | Rejected _ =>
         ({| AuthClient.data := None; AuthClient.error := Some rejected |}, jar0)
     end) ->
  shim_sign_contract sign rejected r jar0.
Proof.
  intros Hshape. unfold shim_sign_contract. rewrite Hshape. clear Hshape.
  destruct r as [d|e].
  - destruct (Js.truthy_obj (data_user d) && Js.truthy (data_access_token d)) eqn:Hc.
    + apply payload_complete_spec in Hc as (u & t & Hu & Ht & Hne). simpl.
      split; [split; eauto|].
      split; [split; [intros _; exists d, u, t; auto | reflexivity]|].
      split.
      { intros d' t' [= <-] _ Ht'. rewrite Ht in Ht'. injection Ht' as <-.
        rewrite Ht. simpl. split; [reflexivity|]. split; [reflexivity|].
        unfold Auth.useSession. rewrite get_set_token. simpl.
        apply String.eqb_neq in Hne. rewrite Hne. simpl. split; reflexivity. }
      split; [intros H; contradiction H; reflexivity|].
      split; [intros d' _ H; contradiction H; reflexivity | intros e [=]].
    + simpl. split; [split; [discriminate | intros [x [=]]]|].
      split.
      { split; [discriminate|].
        intros (d' & u & t & [= <-] & Hu & Ht & Hne).
        assert (Js.truthy_obj (data_user d) && Js.truthy (data_access_token d) = true)
          by (apply payload_complete_spec; eauto).
        congruence. }
      split; [intros d' t _ [=]|].
      split; [reflexivity|].
      split; [reflexivity | intros e [=]].
  - simpl. split; [split; [discriminate | intros [x [=]]]|].
    split; [split; [discriminate | intros (d & u & t & [=] & _)]|].
    split; [intros d t [=]|].
    split; [reflexivity|].
    split; [intros d [=] | reflexivity].
Qed.

(** X16. [signIn.email] and [signUp.email] of the shim never throw and
    return exactly one of [data] and [error]. They succeed exactly when the
    response carries a user and a non-empty access token; then the token is
    written to the ['token'] cookie for 7 days and [useSession] reports the
    session authenticated with that token. Otherwise the cookie store is
    left as it was, and the error is [No user data received] for an
    incomplete payload, and for a rejected call [Invalid email or password]
    (sign-in) or [Signup failed] (sign-up). *)
Theorem shim_sign_results (r : AxiosResult) (jar0 : gmap string Cookie) :
  shim_sign_contract AuthClient.signIn_email "Invalid email or password" r jar0
  /\ shim_sign_contract AuthClient.signUp_email "Signup failed" r jar0.
Proof.
  split; apply shim_sign_generic; intros r' j'; reflexivity.
Qed.

(** X17. [signOut] of the shim removes the ['token'] cookie however the
    sign-out call settled, so that [useSession] then reports no session;
    it touches no other cookie, and only a rejected call leaves a line on
    the console. *)
Theorem shim_signOut_ends_session (r : AxiosResult) (jar0 : gmap string Cookie)
    (console0 : list (string * Thrown)) :
  let jar1 := fst (AuthClient.signOut r jar0 console0) in
  let console1 := snd (AuthClient.signOut r jar0 console0) in
  jar1 = delete "token" jar0
  /\ Auth.isAuthenticated (Auth.useSession jar1) = false
  /\ Auth.data (Auth.useSession jar1) = None
  /\ (forall n, n <> "token" -> jar1 !! n = jar0 !! n)
  /\ console1 = console0 ++
       match r with
       | Rejected e => [("Logout error:", AxiosFailure e)]
       | Resolved _ => []
       end.
Proof.
  assert (Hjar : fst (AuthClient.signOut r jar0 console0) = Cookies.remove "token" jar0)
    by (destruct r; reflexivity).
  cbv zeta. rewrite Hjar. unfold Auth.useSession. rewrite get_remove_token. simpl.
  split; [reflexivity|]. split; [reflexivity|]. split; [reflexivity|]. split.
  - intros n Hn. unfold Cookies.remove. apply lookup_delete_ne. congruence.
  - destruct r; simpl; [now rewrite app_nil_r | reflexivity].
Qed.

(* ===================================================================== *)
(** * Properties of the forms                                              *)
(* ===================================================================== *)

Lemma trimStart_empty (s : string) : trimStart s = "" <-> blank s = true.
Proof.
  induction s as [|c s IH]; simpl; [tauto|].
  destruct (isWhiteSpace c); simpl; [exact IH|].
  split; discriminate.
Qed.

Lemma trimEnd_empty (s : string) : trimEnd s = "" <-> blank s = true.
Proof.
  induction s as [|c s IH]; simpl; [tauto|].
  destruct (trimEnd s) as [|a r].
  - destruct (isWhiteSpace c); simpl.
    + split; [intros _; apply IH; reflexivity | reflexivity].
    + split; discriminate.
  - split; [discriminate|]. rewrite andb_true_iff. intros [_ Hb].
    apply IH in Hb. discriminate.
Qed.

Lemma blank_trimStart (s : string) : blank (trimStart s) = blank s.
Proof.
  induction s as [|c s IH]; simpl; [reflexivity|].
  destruct (isWhiteSpace c) eqn:Hc; simpl; [exact IH | now rewrite Hc].
Qed.

Lemma trim_empty (s : string) : trim s = "" <-> blank s = true.
Proof. unfold trim. now rewrite trimEnd_empty, blank_trimStart. Qed.

Lemma first_char_trimStart (s : string) (c : ascii) :
  first_char (trimStart s) = Some c -> isWhiteSpace c = false.
Proof.
  induction s as [|a s IH]; simpl; [discriminate|].
  destruct (isWhiteSpace a) eqn:Ha; simpl; [exact IH|].
  intros [= <-]. exact Ha.
Qed.

Lemma first_char_trimEnd (s : string) (c : ascii) :
  first_char (trimEnd s) = Some c -> first_char s = Some c.
Proof.
  destruct s as [|a s]; simpl; [discriminate|].
  destruct (trimEnd s); [destruct (isWhiteSpace a)|]; simpl; congruence.
Qed.

Lemma last_char_trimEnd (s : string) (c : ascii) :
  last_char (trimEnd s) = Some c -> isWhiteSpace c = false.
Proof.
  induction s as [|a s IH]; simpl; [discriminate|].
  destruct (trimEnd s) as [|b r].
  - destruct (isWhiteSpace a) eqn:Ha; simpl; [discriminate|].
    intros [= <-]. exact Ha.
  - exact IH.
Qed.

(** [trim] leaves no white space at either end. *)
Lemma trim_ends (s : string) (c : ascii) :
  first_char (trim s) = Some c \/ last_char (trim s) = Some c ->
  isWhiteSpace c = false.
Proof.
  unfold trim. intros [H | H].
  - apply first_char_trimEnd in H. eapply first_char_trimStart, H.
  - eapply last_char_trimEnd, H.
Qed.

Lemma or_undefined_trim (s : string) :
  or_undefined (trim s) = if blank s then None else Some (trim s).
Proof.
  unfold or_undefined. simpl.
  destruct (blank s) eqn:Hb.
  - apply trim_empty in Hb as ->. reflexivity.
  - destruct (String.eqb (trim s) "") eqn:He; [|reflexivity].
    apply String.eqb_eq, trim_empty in He. congruence.
Qed.

(** X18. For an ASCII title and description: the quick-add form sends
    nothing when the title is blank (empty or white space only). Otherwise
    it sends one [POST /api/tasks] with
    credentials included and no [Authorization] header, whose body holds
    the title without white space at either end (hence non-empty),
    [completed: false], and the trimmed description, or no description at
    all when the description is blank. *)
Theorem taskForm_submit (title description : string) :
  is_ascii title = true ->
  is_ascii description = true ->
  (TaskForm.handleSubmit title description = None <-> blank title = true)
  /\ forall req, TaskForm.handleSubmit title description = Some req ->
       fetch_method req = POST
       /\ fetch_url req = "/api/tasks"
       /\ fetch_credentials req = Some "include"
       /\ fetch_headers req !! "Authorization" = None
       /\ fetch_body req =
            Some (Js.JObj
                    (("title", Js.JStr (trim title))
                     :: (if blank description then []
                         else [("description", Js.JStr (trim description))])
                     ++ [("completed", Js.JBool false)]))
       /\ trim title <> ""
       /\ forall c, first_char (trim title) = Some c \/ last_char (trim title) = Some c ->
                    isWhiteSpace c = false.
Proof.
  intros _ _. unfold TaskForm.handleSubmit. simpl.
  destruct (String.eqb (trim title) "") eqn:He; simpl.
  - apply String.eqb_eq in He. split.
    + split; [intros _; apply trim_empty, He | reflexivity].
    + intros req [=].
  - apply String.eqb_neq in He. split.
    + split; [discriminate|]. intros Hb. apply trim_empty in Hb. contradiction.
    + intros req [= <-]. simpl.
      split; [reflexivity|]. split; [reflexivity|]. split; [reflexivity|].
      split; [reflexivity|]. split.
      * unfold json_of_create, Js.object. simpl. rewrite or_undefined_trim.
        destruct (blank description); reflexivity.
      * split; [exact He | apply trim_ends].
Qed.

Lemma taskForm_submit_witness :
  is_ascii "  Buy milk " = true
  /\ is_ascii "   " = true
  /\ (TaskForm.handleSubmit "  Buy milk " "   " = None <-> blank "  Buy milk " = true)
  /\ forall req, TaskForm.handleSubmit "  Buy milk " "   " = Some req ->
       fetch_body req =
         Some (Js.JObj [("title", Js.JStr "Buy milk"); ("completed", Js.JBool false)]).
Proof.
  assert (Ht : is_ascii "  Buy milk " = true) by reflexivity.
  assert (Hd : is_ascii "   " = true) by reflexivity.
  destruct (taskForm_submit "  Buy milk " "   " Ht Hd) as [Hnone Hsome].
  split; [exact Ht|]. split; [exact Hd|]. split; [exact Hnone|].
  intros req Hreq. destruct (Hsome req Hreq) as (_ & _ & _ & _ & Hbody & _).
  exact Hbody.
Defined.


(** X20. For an ASCII title and description: the create page sends a
    request exactly when a user is signed in:
    [POST /api/{user.id}/tasks] with the trimmed title, the trimmed
    description (left out when blank) and the chosen [completed] flag. The
    handler does not check the title: a blank title is sent as the empty
    string. *)
Theorem createTask_submit (user0 : option User.t) (title description : string)
    (completed : bool) :
  is_ascii title = true ->
  is_ascii description = true ->
  (CreateTask.handleSubmit user0 title description completed = None <-> user0 = None)
  /\ forall u, user0 = Some u ->
       exists c,
         CreateTask.handleSubmit user0 title description completed = Some c
         /\ call_method c = POST
         /\ call_url c = "/api/" +:+ User.id u +:+ "/tasks"
         /\ call_data c =
              Some (Js.JObj
                      (("title", Js.JStr (if blank title then "" else trim title))
                       :: (if blank description then []
                           else [("description", Js.JStr (trim description))])
                       ++ [("completed", Js.JBool completed)])).
Proof.
  intros _ _. split.
  - destruct user0; simpl; split; congruence.
  - intros u ->. eexists. split; [reflexivity|].
    split; [reflexivity|]. split; [reflexivity|].
    unfold taskApi.createTask, api.post, json_of_create, Js.object. simpl.
    rewrite or_undefined_trim.
    destruct (blank title) eqn:Hb.
    + apply trim_empty in Hb as ->. destruct (blank description); reflexivity.
    + destruct (blank description); reflexivity.
Qed.

Lemma createTask_submit_witness :
  let u := User.mk "1" "a@b.com" None None None None in
  is_ascii "   " = true
  /\ is_ascii "soon" = true
  /\ exists c,
       CreateTask.handleSubmit (Some u) "   " "soon" false = Some c
       /\ call_method c = POST
       /\ call_url c = "/api/" +:+ User.id u +:+ "/tasks"
       /\ call_data c =
            Some (Js.JObj [("title", Js.JStr ""); ("description", Js.JStr "soon");
                           ("completed", Js.JBool false)]).
Proof.
  intros u.
  assert (Ht : is_ascii "   " = true) by reflexivity.
  assert (Hd : is_ascii "soon" = true) by reflexivity.
  destruct (createTask_submit (Some u) "   " "soon" false Ht Hd) as [_ Hsome].
  split; [exact Ht|]. split; [exact Hd|].
  exact (Hsome u eq_refl).
Defined.

(* ===================================================================== *)
(** * Further properties of the request client                             *)
(* ===================================================================== *)

(** X21. The request interceptor changes nothing of a request but its
    [Authorization] header: base URL, method, URL, body, query and
    credentials flag are passed on, and so is every other header (the
    [Content-Type] of the instance included). *)
Theorem interceptor_only_sets_authorization (jar0 : gmap string Cookie)
    (config : AxiosRequestConfig) :
  let config' := api.request_interceptor jar0 config in
  baseURL config' = baseURL config
  /\ method config' = method config
  /\ url config' = url config
  /\ data config' = data config
  /\ params config' = params config
  /\ withCredentials config' = withCredentials config
  /\ forall h, h <> "Authorization" -> headers config' !! h = headers config !! h.
Proof.
  unfold api.request_interceptor.
  destruct (Cookies.get "token" jar0) as [t|]; simpl; [|repeat split].
  destruct (String.eqb t ""); simpl; repeat split.
  intros h Hh. apply lookup_insert_ne. congruence.
Qed.

Lemma startsWith_app (a b : string) : Js.startsWith (a +:+ b) a = true.
Proof. apply startsWith_spec. exists b. reflexivity. Qed.

Lemma string_app_empty (a : string) : a +:+ "" = a.
Proof.
  induction a as [|x a IH]; [reflexivity|].
  change (String x (a +:+ "") = String x a). now rewrite IH.
Qed.

(** X22. Every task operation addresses the user it is given: its URL
    starts with [/api/{userId}/tasks]; every auth operation addresses the
    current session: its URL starts with [/api/auth/]. Operations that read
    or delete ([GET], [DELETE]) carry no body. *)
Theorem operations_are_scoped (op : Operation) :
  match task_user op with
  | Some u => Js.startsWith (call_url (call_of op)) ("/api/" +:+ u +:+ "/tasks") = true
  | None => Js.startsWith (call_url (call_of op)) "/api/auth/" = true
  end
  /\ (call_method (call_of op) = GET \/ call_method (call_of op) = DELETE ->
      call_data (call_of op) = None).
Proof.
  split.
  - destruct op as [u p|u d|u t|u t d|u t|u t c|u t|d|d| | |d|d]; simpl;
      try reflexivity; apply startsWith_spec.
    + exists "". now rewrite string_app_empty.
    + exists "". now rewrite string_app_empty.
    + exists ("/" +:+ t). rewrite !string_app_assoc. reflexivity.
    + exists ("/" +:+ t). rewrite !string_app_assoc. reflexivity.
    + exists ("/" +:+ t). rewrite !string_app_assoc. reflexivity.
    + exists ("/" +:+ t +:+ "/complete"). rewrite !string_app_assoc. reflexivity.
    + exists ("/" +:+ t +:+ "/complete"). rewrite !string_app_assoc. reflexivity.
  - destruct op; simpl; intros [H | H]; try discriminate; reflexivity.
Qed.

(* ===================================================================== *)
(** * The session store as the views see it                                *)
(* ===================================================================== *)

(** X23. While a [login] is in flight the landing page pushes no route.
    Once it has settled, the page pushes [/dashboard] if the sign-in
    succeeded; if it failed, the page pushes what it would have pushed
    before the attempt: [/dashboard] for a store that already had a user,
    [/auth/signin] otherwise. *)
Theorem home_follows_login (w : World) (email password : string) (r : AxiosResult) :
  Home.redirect (store (fst (start (Login email password) w))) = None
  /\ Home.redirect (store (fst (perform (Login email password) [r] w)))
     = match r with
       | Resolved d =>
           if Js.truthy_obj (data_user d) && Js.truthy (data_access_token d)
           then Some "/dashboard"
           else if Js.truthy_obj (user (store w)) then Some "/dashboard"
                else Some "/auth/signin"
       | Rejected _ =>
           if Js.truthy_obj (user (store w)) then Some "/dashboard"
           else Some "/auth/signin"
       end.
Proof.
  split; [reflexivity|].
  erewrite perform_parked by reflexivity.
  destruct r as [d|e]; simpl; [|reflexivity].
  destruct (Js.truthy_obj (data_user d) && Js.truthy (data_access_token d)) eqn:Hc;
    simpl; [|reflexivity].
  apply andb_true_iff in Hc as [Hu _]. destruct (data_user d); [reflexivity | discriminate].
Qed.

(** X24. On a reload with a stored token the views see a signed-out store
    first: right after the mount effect, while the validation is still in
    flight, the guard of the protected pages fires and the landing page
    pushes [/auth/signin]; only once the session response has brought the
    user does the landing page push [/dashboard]. *)
Theorem reload_redirects_before_validation (env0 : option string)
    (jar0 : gmap string Cookie) (t : string) (u : User.t) (d : ResponseData) :
  Cookies.get "token" jar0 = Some t ->
  t <> "" ->
  data_user d = Some u ->
  exists w1 w2,
    run [Mount] (boot env0 jar0) = Some w1
    /\ validation_in_flight w1 = true
    /\ redirects_to_signin (store w1) = true
    /\ Home.redirect (store w1) = Some "/auth/signin"
    /\ run [Settle 0 (Resolved d)] w1 = Some w2
    /\ redirects_to_signin (store w2) = false
    /\ Home.redirect (store w2) = Some "/dashboard".
Proof.
  intros Hget Hne Hu. apply String.eqb_neq in Hne.
  simpl. rewrite Hget. simpl. rewrite Hne. simpl.
  eexists. eexists. split; [reflexivity|]. simpl.
  split; [reflexivity|]. split; [reflexivity|]. split; [reflexivity|].
  rewrite Hu. simpl. repeat split.
Qed.

Lemma reload_redirects_before_validation_witness :
  let u := User.mk "1" "a@b.com" None None None None in
  let jar0 : gmap string Cookie := {[ "token" := mkCookie "tok" 7 ]} in
  exists w1 w2,
    run [Mount] (boot None jar0) = Some w1
    /\ validation_in_flight w1 = true
    /\ redirects_to_signin (store w1) = true
    /\ Home.redirect (store w1) = Some "/auth/signin"
    /\ run [Settle 0 (Resolved {| data_user := Some u; data_access_token := None |})] w1
       = Some w2
    /\ redirects_to_signin (store w2) = false
    /\ Home.redirect (store w2) = Some "/dashboard".
Proof.
  intros u jar0.
  apply (reload_redirects_before_validation None jar0 "tok" u);
    [reflexivity | discriminate | reflexivity].
Defined.

(* ===================================================================== *)
(** * Properties of the chat page                                          *)
(* ===================================================================== *)

(** What a submit that went through leaves behind. *)
Lemma chat_submit_shape (user_id : option string) (s : Chat.State)
    (req : FetchRequest) (s1 : Chat.State) :
  Chat.handleSubmit user_id s = Some (req, s1) ->
  Chat.messages s1 = Chat.messages s ++ [Chat.mkMessage Chat.user (Chat.input s)]
  /\ Chat.isLoading s1 = true
  /\ Chat.error s1 = None
  /\ Chat.conversationId s1 = Chat.conversationId s.
Proof.
  unfold Chat.handleSubmit.
  destruct (negb (Js.truthy (Some (trim (Chat.input s)))) || negb (Js.truthy user_id));
    [discriminate|].
  intros [= <- <-]. repeat split.
Qed.

(** X25. For an ASCII input: the chat form does nothing when the input is
    blank or no user id is known. Otherwise it appends the user's message to the transcript at
    once, clears the input and the error, raises [isLoading], and sends
    [POST /api/chat] with the input as typed (not trimmed) and with the
    conversation id exactly when one is known. *)
Theorem chat_submit (user_id : option string) (s : Chat.State) :
  is_ascii (Chat.input s) = true ->
  (Chat.handleSubmit user_id s = None
   <-> blank (Chat.input s) = true \/ user_id = None \/ user_id = Some "")
  /\ forall req s', Chat.handleSubmit user_id s = Some (req, s') ->
       Chat.messages s' = Chat.messages s ++ [Chat.mkMessage Chat.user (Chat.input s)]
       /\ Chat.input s' = ""
       /\ Chat.isLoading s' = true
       /\ Chat.error s' = None
       /\ Chat.conversationId s' = Chat.conversationId s
       /\ fetch_method req = POST
       /\ fetch_url req = "/api/chat"
       /\ fetch_body req =
            Some (Js.JObj
                    (("message", Js.JStr (Chat.input s))
                     :: match Chat.conversationId s with
                        | Some c => if String.eqb c "" then []
                                    else [("conversation_id", Js.JStr c)]
                        | None => []
                        end)).
Proof.
  intros _. unfold Chat.handleSubmit. simpl.
  destruct (String.eqb (trim (Chat.input s)) "") eqn:He; simpl.
  - apply String.eqb_eq, trim_empty in He. split.
    + split; [intros _; left; exact He | reflexivity].
    + intros req s' [=].
  - assert (Hnb : blank (Chat.input s) = false).
    { destruct (blank (Chat.input s)) eqn:Hb; [|reflexivity].
      apply trim_empty in Hb. rewrite Hb in He. discriminate. }
    destruct user_id as [uid|]; simpl.
    + destruct (String.eqb uid "") eqn:Hu; simpl.
      * apply String.eqb_eq in Hu as ->. split.
        -- split; [intros _; right; right; reflexivity | reflexivity].
        -- intros req s' [=].
      * apply String.eqb_neq in Hu. split.
        -- split; [discriminate|].
           intros [Hb | [[=] | [= ->]]]; [congruence | contradiction].
        -- intros req s' [= <- <-]. simpl. repeat split.
           unfold Chat.requestBody, Js.object. simpl.
           destruct (Chat.conversationId s) as [c|]; simpl; [|reflexivity].
           destruct (String.eqb c ""); reflexivity.
    + split.
      * split; [intros _; right; left; reflexivity | reflexivity].
      * intros req s' [=].
Qed.

Lemma chat_submit_witness :
  let s := Chat.mkState [] " show my tasks " false (Some "old error") (Some "c1") in
  is_ascii (Chat.input s) = true
  /\ forall req s', Chat.handleSubmit (Some "1") s = Some (req, s') ->
       Chat.messages s' = [Chat.mkMessage Chat.user " show my tasks "]
       /\ Chat.input s' = ""
       /\ fetch_body req =
            Some (Js.JObj [("message", Js.JStr " show my tasks ");
                           ("conversation_id", Js.JStr "c1")]).
Proof.
  intros s.
  assert (Hi : is_ascii (Chat.input s) = true) by reflexivity.
  destruct (chat_submit (Some "1") s Hi) as [_ Hsome].
  split; [exact Hi|].
  intros req s' Hsub.
  destruct (Hsome req s' Hsub) as (Hm & Hin & _ & _ & _ & _ & _ & Hb).
  split; [exact Hm|]. split; [exact Hin | exact Hb].
Defined.

(** X26. However the chat request ends, [isLoading] returns to false and
    the transcript only grows: the user's message stays even when the
    request fails. A reply appends the assistant's message and stores its
    conversation id, which the next submit sends along (when non-empty); a
    failure leaves transcript and conversation id alone and shows the
    response's [detail], the fixed fallback text, or the exception's
    message. *)
Theorem chat_exchange (uid : string) (s s1 : Chat.State) (req : FetchRequest)
    (r : Chat.FetchResult) :
  Chat.handleSubmit (Some uid) s = Some (req, s1) ->
  let s2 := Chat.settle r s1 in
  Chat.isLoading s2 = false
  /\ (exists more,
        Chat.messages s2
        = Chat.messages s ++ Chat.mkMessage Chat.user (Chat.input s) :: more
        /\ more = match r with
                  | Chat.Ok response _ => [Chat.mkMessage Chat.assistant response]
                  | _ => []
                  end)
  /\ Chat.conversationId s2 =
       match r with
       | Chat.Ok _ c => Some c
       | _ => Chat.conversationId s
       end
  /\ Chat.error s2 =
       match r with
       | Chat.Ok _ _ => None
       | Chat.NotOk (Some detail) =>
           Some (if String.eqb detail "" then "Failed to get a response from the chatbot."
                 else detail)
       | Chat.NotOk None => Some "Failed to get a response from the chatbot."
       | Chat.Threw message => Some message
       end.
Proof.
  intros Hsub.
  destruct (chat_submit_shape (Some uid) s req s1 Hsub) as (Hm & Hl & He & Hc).
  cbv zeta. destruct r as [msg|[detail|]|resp cid]; simpl; rewrite ?Hm, ?He, ?Hc.
  - split; [reflexivity|]. split; [exists []; split; reflexivity|]. split; reflexivity.
  - split; [reflexivity|]. split; [exists []; split; reflexivity|].
    split; [reflexivity|]. destruct (String.eqb detail ""); reflexivity.
  - split; [reflexivity|]. split; [exists []; split; reflexivity|]. split; reflexivity.
  - split; [reflexivity|]. split; [|split; reflexivity].
    eexists. split; [|reflexivity]. now rewrite <- app_assoc.
Qed.

Lemma chat_exchange_witness :
  let s := Chat.mkState [] "Add a task to buy milk" false None None in
  let s1 := Chat.mkState [Chat.mkMessage Chat.user "Add a task to buy milk"] ""
              true None None in
  exists req,
    Chat.handleSubmit (Some "1") s = Some (req, s1)
    /\ Chat.isLoading (Chat.settle (Chat.Ok "Done." "c1") s1) = false
    /\ Chat.messages (Chat.settle (Chat.Ok "Done." "c1") s1)
       = [Chat.mkMessage Chat.user "Add a task to buy milk";
          Chat.mkMessage Chat.assistant "Done."]
    /\ Chat.conversationId (Chat.settle (Chat.Ok "Done." "c1") s1) = Some "c1".
Proof.
  intros s s1. eexists.
  assert (Hsub : Chat.handleSubmit (Some "1") s = Some (_, s1)) by reflexivity.
  split; [exact Hsub|].
  destruct (chat_exchange "1" s s1 _ (Chat.Ok "Done." "c1") Hsub)
    as (Hl & (more & Hm & ->) & Hc & _).
  split; [exact Hl|]. split; [exact Hm | exact Hc].
Defined.
